(** * napari-rembg: slice extraction, ROI cropping and mask write-back

    A shallow embedding of [src/napari_rembg/_widget.py].

    The widget reads a 2D slice out of a (possibly 3D) image through a
    transposed NumPy view, optionally crops it to the bounding box of a
    rectangle ROI, calls the background-removal predictor, and writes the
    resulting mask into a label volume through the same transposed view.

    NumPy arrays are modelled as strided views over a flat buffer, so that a
    write through [a.transpose(axes)[k]] lands in the buffer of [a] itself,
    as it does in the source.  Python exceptions are modelled by the error
    monad [res]; Python's [None] by [option]. *)

From stdpp Require Import list strings.
From Stdlib Require Import ZArith Lia.

Set Default Proof Using "Type".

(* ================================================================= *)
(** ** Python exceptions *)

Inductive pyerr : Type :=
  | AttributeError
  | IndexError
  | KeyError
  | TypeError
  | ValueError
  | AxisError
  | ReferenceError
  | ExternalError (code : nat).

Inductive res (A : Type) : Type :=
  | Ok (a : A)
  | Raise (e : pyerr).
Arguments Ok {A} a.
Arguments Raise {A} e.

Definition rbind {A B} (m : res A) (k : A -> res B) : res B :=
  match m with
  | Ok a => k a
  | Raise e => Raise e
  end.

Notation "'let*' x := m 'in' k" := (rbind m (fun x => k))
  (at level 10, x name, m at level 100, k at level 200, only parsing).

(* ================================================================= *)
(** ** NumPy arrays as strided views *)

Module np.

(** An array is a view: a buffer shared with the array it was derived
    from, an offset into it, and a shape with one stride per axis. *)
Record ndarray (A : Type) : Type := NdArray {
  buf : list A;
  offset : nat;
  shape : list nat;
  strides : list nat
}.
Arguments NdArray {A} buf offset shape strides.
Arguments buf {A} _.
Arguments offset {A} _.
Arguments shape {A} _.
Arguments strides {A} _.

Definition ndim {A} (a : ndarray A) : nat := length (shape a).

(** The same view over another buffer: what a view looks like after its
    base buffer has been written. *)
Definition with_buf {A} (a : ndarray A) (b : list A) : ndarray A :=
  NdArray b (offset a) (shape a) (strides a).

Definition prod_list (l : list nat) : nat := foldr Nat.mul 1 l.

(** Row-major (C order) strides of a freshly allocated array. *)
Fixpoint c_strides (sh : list nat) : list nat :=
  match sh with
  | [] => []
  | _ :: sh' => prod_list sh' :: c_strides sh'
  end.

(** [np.ndindex]: every index of a shape, in row-major order. *)
Fixpoint ndindex (sh : list nat) : list (list nat) :=
  match sh with
  | [] => [[]]
  | n :: sh' => i ← seq 0 n; (cons i) <$> ndindex sh'
  end.

Fixpoint in_bounds (sh idx : list nat) : bool :=
  match sh, idx with
  | [], [] => true
  | n :: sh', i :: idx' => (i <? n) && in_bounds sh' idx'
  | _, _ => false
  end.

Fixpoint dot (idx st : list nat) : nat :=
  match idx, st with
  | i :: idx', s :: st' => i * s + dot idx' st'
  | _, _ => 0
  end.

(** Buffer position of the element at index [idx]. *)
Definition flat_pos {A} (a : ndarray A) (idx : list nat) : nat :=
  offset a + dot idx (strides a).

(** Element read, total: used where the index is known to be in range. *)
Definition item {A} `{Inhabited A} (a : ndarray A) (idx : list nat) : A :=
  buf a !!! flat_pos a idx.

(** A fresh C-contiguous array holding [f idx] at every index. *)
Definition tabulate {A} (sh : list nat) (f : list nat -> A) : ndarray A :=
  NdArray (f <$> ndindex sh) 0 sh (c_strides sh).

(** [np.zeros(shape, dtype=...)]. *)
Definition zeros (sh : list nat) : ndarray Z := tabulate sh (fun _ => 0%Z).

(** [np.zeros_like(a, dtype=np.int_)]. *)
Definition zeros_like {A} (a : ndarray A) : ndarray Z := zeros (shape a).

(** [a.copy()]: a fresh array with the elements of the view. *)
Definition copy {A} `{Inhabited A} (a : ndarray A) : ndarray A :=
  tabulate (shape a) (item a).

(** [a.astype(np.uint8)] on an integer array: values wrap modulo 256. *)
Definition astype_uint8 (a : ndarray Z) : ndarray Z :=
  tabulate (shape a) (fun idx => (item a idx mod 256)%Z).

(** [a > 0]: a fresh boolean array. *)
Definition gt0 (a : ndarray Z) : ndarray bool :=
  tabulate (shape a) (fun idx => (0 <? item a idx)%Z).

(** Is [axes] a permutation of [0 .. n-1]? *)
Definition is_perm (n : nat) (axes : list nat) : bool :=
  (length axes =? n) && forallb (fun k => k <? n) axes
  && bool_decide (NoDup axes).

(** The per-axis checks of [a.transpose(axes)], in the order NumPy makes
    them: an axis out of range is an [AxisError], an axis met before is a
    [ValueError]. *)
Fixpoint check_axes (n : nat) (seen axes : list nat) : res unit :=
  match axes with
  | [] => Ok tt
  | k :: axes' =>
      if negb (k <? n) then Raise AxisError
      else if bool_decide (k ∈ seen) then Raise ValueError
      else check_axes n (k :: seen) axes'
  end.

(** [a.transpose(axes)]: a view with permuted shape and strides;
    [ValueError] when [axes] has not one entry per axis of the array. *)
Definition transpose {A} (a : ndarray A) (axes : list nat) : res (ndarray A) :=
  if negb (length axes =? ndim a) then Raise ValueError
  else
    let* _ := check_axes (ndim a) [] axes in
    Ok (NdArray (buf a) (offset a)
          ((fun k => shape a !!! k) <$> axes)
          ((fun k => strides a !!! k) <$> axes)).

(** [a.transpose(None)]: the axes reversed. *)
Definition transpose_none {A} (a : ndarray A) : ndarray A :=
  NdArray (buf a) (offset a) (reverse (shape a)) (reverse (strides a)).

(** [a[k]] with a non-negative integer: a view on sub-array [k] of axis 0. *)
Definition index0 {A} (a : ndarray A) (k : nat) : res (ndarray A) :=
  match shape a, strides a with
  | n :: sh, s :: st =>
      if k <? n then Ok (NdArray (buf a) (offset a + k * s) sh st)
      else Raise IndexError
  | _, _ => Raise IndexError
  end.

(** [a[ks]] with an integer array [ks]: fancy indexing along axis 0, which
    copies the selected sub-arrays into a fresh array. *)
Definition take0 {A} `{Inhabited A} (a : ndarray A) (ks : list nat) : res (ndarray A) :=
  match shape a with
  | n :: sh =>
      if forallb (fun k => k <? n) ks
      then Ok (tabulate (length ks :: sh)
                 (fun idx => match idx with
                             | i :: idx' => item a ((ks !!! i) :: idx')
                             | [] => item a []
                             end))
      else Raise IndexError
  | [] => Raise IndexError
  end.

(** [a[x0:x1, y0:y1]] with non-negative bounds: a view on the first two
    axes; as in Python, bounds beyond the extent are clamped. *)
Definition slice2 {A} (a : ndarray A) (x0 x1 y0 y1 : nat) : res (ndarray A) :=
  match shape a, strides a with
  | n0 :: n1 :: sh, s0 :: s1 :: st =>
      let b0 := x0 `min` n0 in
      let b1 := y0 `min` n1 in
      Ok (NdArray (buf a) (offset a + b0 * s0 + b1 * s1)
            ((x1 `min` n0 - b0) :: (y1 `min` n1 - b1) :: sh) (s0 :: s1 :: st))
  | _, _ => Raise IndexError
  end.

(** Broadcasting of a source shape against a destination shape: trailing
    axes are aligned, and a source extent must equal the destination's or
    be 1; axes the source has in excess must lead and have extent 1. *)
Definition broadcastable (src dst : list nat) : bool :=
  let e := length src - length dst in
  forallb (fun s => s =? 1) (take e src)
  && forallb (fun p => (p.1 =? p.2) || (p.1 =? 1))
       (zip (drop e src) (drop (length dst - length (drop e src)) dst)).

(** The source index read for destination index [idx]. *)
Definition broadcast_index (src : list nat) (idx : list nat) : list nat :=
  let e := length src - length idx in
  replicate e 0
  ++ zip_with (fun s i => if s =? 1 then 0 else i) (drop e src)
       (drop (length idx - length (drop e src)) idx).

(** Element-wise writes into a buffer: for every index of [l] that [sel]
    selects, in order, [f idx] is stored at position [pos idx]. *)
Definition write_list {A} (pos : list nat -> nat) (sel : list nat -> bool)
    (f : list nat -> A) (b : list A) (l : list (list nat)) : list A :=
  foldl (fun b idx => if sel idx then <[pos idx := f idx]> b else b) b l.

(** Writes [f idx] at the position of every index of the view [a] that
    satisfies [sel]; the result is the new content of the shared buffer. *)
Definition write_where {A} (a : ndarray A) (sel : list nat -> bool)
    (f : list nat -> A) : list A :=
  write_list (flat_pos a) sel f (buf a) (ndindex (shape a)).

(** [a[...] = src] for a view [a]: element-wise assignment with
    broadcasting; [ValueError] when the shapes do not broadcast. *)
Definition assign {A} `{Inhabited A} (a : ndarray A) (src : ndarray A) : res (list A) :=
  if broadcastable (shape src) (shape a)
  then Ok (write_where a (fun _ => true)
             (fun idx => item src (broadcast_index (shape src) idx)))
  else Raise ValueError.

(** [a[mask] = v] with a boolean array [mask] and a scalar [v]: the mask
    must match the leading axes of [a]; every element whose leading index
    is selected is overwritten. *)
Definition setitem_mask {A} (a : ndarray A) (mask : ndarray bool) (v : A)
    : res (list A) :=
  if bool_decide (shape mask = take (ndim mask) (shape a))
  then Ok (write_where a (fun idx => item mask (take (ndim mask) idx))
             (fun _ => v))
  else Raise IndexError.

(** [np.max(a, axis=0)]. *)
Definition max_axis0 (a : ndarray Z) : res (ndarray Z) :=
  match shape a with
  | [] => Raise AxisError
  | 0 :: _ => Raise ValueError
  | S n :: sh =>
      Ok (tabulate sh (fun idx =>
            foldr (fun k m => Z.max (item a (k :: idx)) m)
              (item a (0 :: idx)) (seq 1 n)))
  end.

(** The buffer positions a view covers. *)
Definition positions {A} (a : ndarray A) : list nat :=
  flat_pos a <$> ndindex (shape a).

(** Well-formed views: one stride per axis, every index inside the buffer,
    and no two indices on the same buffer cell.  Every array NumPy
    allocates, and every transposed or sliced view of one, is of this
    kind. *)
Definition wf {A} (a : ndarray A) : Prop :=
  length (strides a) = length (shape a)
  /\ Forall (fun p => p < length (buf a)) (positions a)
  /\ NoDup (positions a).

(** The index into [a] of the element that [a.transpose(ax)] holds at
    [idx]: coordinate [ax[p]] of the result is [idx[p]]. *)
Definition untranspose (ax idx : list nat) : list nat :=
  (fun m => match list_find (fun a => a = m) ax with
            | Some (p, _) => idx !!! p
            | None => 0
            end) <$> seq 0 (length ax).

End np.

Import np.

(* ================================================================= *)
(** ** [skimage.measure.regionprops_table(label_image, properties=['bbox'])]

    External library, modelled from its documented behaviour on the
    [uint8] label images the widget passes to it: one row per label value
    present in the image (0 is background), in increasing label order; a
    row holds the smallest index along every axis followed by the largest
    index plus one along every axis.  Only 2D and 3D label images are
    accepted.  With no labelled pixel the columns are empty arrays. *)

Module skimage.

Record bbox_table : Type := BBoxTable {
  tbl_ndim : nat;
  tbl_rows : list (list nat)
}.

Definition coords (lab : ndarray Z) (l : Z) : list (list nat) :=
  filter (fun idx => item lab idx = l) (ndindex (shape lab)).

Definition bbox_of (nd : nat) (c : list nat) (cs : list (list nat)) : list nat :=
  ((fun k => foldr (fun idx m => (idx !!! k) `min` m) (c !!! k) cs) <$> seq 0 nd)
  ++ ((fun k => S (foldr (fun idx m => (idx !!! k) `max` m) (c !!! k) cs)) <$> seq 0 nd).

Definition region_bbox (lab : ndarray Z) (l : Z) : option (list nat) :=
  match coords lab l with
  | [] => None
  | c :: cs => Some (bbox_of (ndim lab) c cs)
  end.

Definition regionprops_table (lab : ndarray Z) : res bbox_table :=
  if bool_decide (ndim lab = 2 \/ ndim lab = 3)
  then Ok (BBoxTable (ndim lab)
             (omap (fun l => region_bbox lab (Z.of_nat l)) (seq 1 255)))
  else Raise TypeError.

(** [table['bbox-k']]: column [k] of the table. *)
Definition column (t : bbox_table) (k : nat) : res (list nat) :=
  if k <? 2 * tbl_ndim t then Ok ((fun r => r !!! k) <$> tbl_rows t)
  else Raise KeyError.

End skimage.

(** [xs[0]] on a sequence. *)
Definition first {A} (xs : list A) : res A :=
  match xs with
  | x :: _ => Ok x
  | [] => Raise IndexError
  end.

(* ================================================================= *)
(** ** Viewer state *)

(** [viewer.dims]: number of displayed dimensions, the displayed
    dimension indices, and the current step along every dimension. *)
Record Dims : Type := mkDims {
  ndisplay : nat;
  displayed : list nat;
  dims_current_step : list nat
}.

(** One shape of a shapes layer. *)
Record Shape : Type := mkShape {
  shape_type : string;
  vertices : list (list Z)
}.

(** [QComboBox]: the item texts and the current index ([None] is Qt's -1). *)
Record QComboBox : Type := mkCombo {
  items : list string;
  currentIndex : option nat
}.

Definition clear : QComboBox := mkCombo [] None.

(** Adding the first item to an empty combo box makes it current. *)
Definition addItem (cb : QComboBox) (text : string) : QComboBox :=
  mkCombo (items cb ++ [text])
    (match currentIndex cb with None => Some 0 | Some i => Some i end).

Definition currentText (cb : QComboBox) : string :=
  match currentIndex cb with
  | Some i => default EmptyString (items cb !! i)
  | None => EmptyString
  end.

(** The three kinds of napari layers the widget handles.  An image layer
    carries its array (which the source also tests against [None]) and the
    [rgb] flag; a labels layer its integer array ([np.int_]) and the
    selected label; a shapes layer its list of shapes. *)
Record ImageLayer (pixel : Type) : Type := mkImage {
  img_name : string;
  img_data : option (ndarray pixel);
  rgb : bool
}.
Arguments mkImage {pixel} img_name img_data rgb.
Arguments img_name {pixel} _.
Arguments img_data {pixel} _.
Arguments rgb {pixel} _.

Record LabelsLayer : Type := mkLabels {
  lbl_name : string;
  lbl_data : ndarray Z;
  lbl_selected_label : Z
}.

Record ShapesLayer : Type := mkShapes {
  shp_name : string;
  shp_data : list Shape
}.

Definition nshapes (s : ShapesLayer) : nat := length (shp_data s).
Definition shp_shape_type (s : ShapesLayer) : list string :=
  shape_type <$> shp_data s.

Inductive Layer (pixel : Type) : Type :=
  | Image (l : ImageLayer pixel)
  | Labels (l : LabelsLayer)
  | Shapes (l : ShapesLayer).
Arguments Image {pixel} l.
Arguments Labels {pixel} l.
Arguments Shapes {pixel} l.

Definition layer_name {pixel} (l : Layer pixel) : string :=
  match l with
  | Image i => img_name i
  | Labels b => lbl_name b
  | Shapes s => shp_name s
  end.

(** The widget together with the viewer it is attached to.  Layers are
    objects shared between [viewer.layers] and the widget's attributes:
    [viewer_layers] is the store, and [image_layer], [labels_layer] and
    [shapes_layer] hold positions in it ([None] for Python's [None]). *)
Record RemBGWidget (pixel : Type) : Type := mkWidget {
  viewer_dims : Dims;
  viewer_layers : list (Layer pixel);
  image_layer : option nat;
  labels_layer : option nat;
  shapes_layer : option nat;
  cb_image : QComboBox;
  cb_result : QComboBox;
  cb_roi : QComboBox;
  pbar_maximum : nat
}.
Arguments mkWidget {pixel} _ _ _ _ _ _ _ _ _.
Arguments viewer_dims {pixel} _.
Arguments viewer_layers {pixel} _.
Arguments image_layer {pixel} _.
Arguments labels_layer {pixel} _.
Arguments shapes_layer {pixel} _.
Arguments cb_image {pixel} _.
Arguments cb_result {pixel} _.
Arguments cb_roi {pixel} _.
Arguments pbar_maximum {pixel} _.

(** [np.array(viewer.dims.current_step)[axes][0]] is one step value when
    [axes] is a list, and the whole step vector when [axes] is [None]
    (indexing with [None] only adds an axis, which [[0]] removes again). *)
Inductive StepIndex : Type :=
  | StepScalar (k : nat)
  | StepVector (ks : list nat).

(* ================================================================= *)
(** ** The widget *)

Section Widget.

Context {pixel : Type} `{Inhabited pixel}.

(** [np.array(rembg.remove(PIL.Image.fromarray(image),
    post_process_mask=True))]: the pretrained model, an external
    capability.  It returns an array of [uint8] channels or raises. *)
Variable rembg_remove : ndarray pixel -> res (ndarray Z).

(** [shapes_layer.to_labels()]: napari's rasterisation of the shapes of a
    layer in the current viewer state. *)
Variable to_labels : Dims -> list Shape -> res (ndarray Z).

(** The name napari gives a new layer, made unique among the names of the
    layers already present. *)
Variable coerce_name : list string -> string -> string.

Abbreviation Widget := (RemBGWidget pixel).

(** Lines 14-16 of [rembg_predict]: [np.mean(seg, axis=2)], then
    [seg[seg != 0] = 1], then [astype(np.uint8)].  The channels are
    [uint8], so their mean is zero exactly when their sum is; the mean of
    no channel at all is NaN, which differs from 0. *)
Definition mean_axis2_ne0 (seg : ndarray Z) : res (ndarray Z) :=
  match shape seg with
  | n0 :: n1 :: c :: sh =>
      Ok (tabulate (n0 :: n1 :: sh) (fun idx =>
            match idx with
            | i :: j :: idx' =>
                if (c =? 0) then 1%Z
                else if bool_decide
                     (foldr (fun k m => (item seg (i :: j :: k :: idx') + m)%Z)
                        0%Z (seq 0 c) = 0%Z)
                     then 0%Z else 1%Z
            | _ => 0%Z
            end))
  | _ => Raise AxisError
  end.

(** Binary segmentation using rembg. *)
Definition rembg_predict (image : ndarray pixel) : res (ndarray Z) :=
  let* seg := rembg_remove image in
  mean_axis2_ne0 seg.

(** *** Access to the layer objects *)

Definition lookup_layer (w : Widget) (r : nat) : res (Layer pixel) :=
  match viewer_layers w !! r with
  | Some l => Ok l
  | None => Raise ReferenceError
  end.

(** [viewer.layers[name]]. *)
Definition layers_getitem (ls : list (Layer pixel)) (name : string) : res nat :=
  match list_find (fun l => layer_name l = name) ls with
  | Some (i, _) => Ok i
  | None => Raise KeyError
  end.

(** Dereferencing an attribute that holds a layer; an attribute of an
    image layer read on a layer of another kind is an [AttributeError]. *)
Definition image_layer_obj (w : Widget) : res (option (ImageLayer pixel)) :=
  match image_layer w with
  | None => Ok None
  | Some r =>
      let* l := lookup_layer w r in
      match l with
      | Image i => Ok (Some i)
      | _ => Raise AttributeError
      end
  end.

Definition labels_layer_obj (w : Widget) : res (option LabelsLayer) :=
  match labels_layer w with
  | None => Ok None
  | Some r =>
      let* l := lookup_layer w r in
      match l with
      | Labels b => Ok (Some b)
      | _ => Raise AttributeError
      end
  end.

Definition shapes_layer_obj (w : Widget) : res (option ShapesLayer) :=
  match shapes_layer w with
  | None => Ok None
  | Some r =>
      let* l := lookup_layer w r in
      match l with
      | Shapes s => Ok (Some s)
      | _ => Raise AttributeError
      end
  end.

(** *** Properties *)

(** The image data, adjusted to handle the RGB case. *)
Definition image_data (w : Widget) : res (option (ndarray pixel)) :=
  let* il := image_layer_obj w in
  match il with
  | None => Ok None
  | Some i => Ok (img_data i)
  end.

Definition is_in_3d_view (w : Widget) : bool :=
  ndisplay (viewer_dims w) =? 3.

Definition dims_displayed (w : Widget) : list nat :=
  displayed (viewer_dims w).

Definition ndim (w : Widget) : res (option nat) :=
  let* il := image_layer_obj w in
  match il with
  | None => Ok None
  | Some i =>
      match img_data i with
      | None => Ok None
      | Some d => if rgb i then Ok (Some 2) else Ok (Some (np.ndim d))
      end
  end.

(** [list(set([0, 1, 2]) - set(dims_displayed))[0]]: CPython iterates a
    set of small integers in increasing order. *)
Definition axes (w : Widget) : res (option (list nat)) :=
  if is_in_3d_view w then Ok None
  else
    let* nd := ndim w in
    if bool_decide (nd = Some 3) then
      let* d := first (list_difference [0; 1; 2] (dims_displayed w)) in
      Ok (Some (d :: dims_displayed w))
    else Ok (Some (dims_displayed w)).

(** Current step, adjusted based on the layer transpose state. *)
Definition current_step (w : Widget) : res StepIndex :=
  let cs := dims_current_step (viewer_dims w) in
  let* ax := axes w in
  match ax with
  | None => Ok (StepVector cs)
  | Some ax =>
      if forallb (fun a => a <? length cs) ax
      then let* k := first ((fun a => cs !!! a) <$> ax) in Ok (StepScalar k)
      else Raise IndexError
  end.

(** [a.transpose(axes)] for the value of the [axes] property. *)
Definition transpose_by {A} (a : ndarray A) (ax : option (list nat))
    : res (ndarray A) :=
  match ax with
  | Some ax => transpose a ax
  | None => Ok (transpose_none a)
  end.

(** [a[step]] for the value of the [current_step] property. *)
Definition index_step {A} `{Inhabited A} (a : ndarray A) (cs : StepIndex)
    : res (ndarray A) :=
  match cs with
  | StepScalar k => index0 a k
  | StepVector ks => take0 a ks
  end.

(** The currently visible 2D slice if the image is 3D, otherwise the image
    itself (if 2D). *)
Definition image_data_slice (w : Widget) : res (option (ndarray pixel)) :=
  let* d := image_data w in
  match d with
  | None => Ok None
  | Some img =>
      let* nd := ndim w in
      if bool_decide (nd = Some 2) then Ok (Some img)
      else if bool_decide (nd = Some 3) then
        let* ax := axes w in
        let* t := transpose_by img ax in
        let* cs := current_step w in
        let* s := index_step t cs in
        Ok (Some s)
      else Ok None
  end.

Definition selected_label (w : Widget) : res (option Z) :=
  let* ll := labels_layer_obj w in
  match ll with
  | None => Ok None
  | Some b => Ok (Some (lbl_selected_label b))
  end.

(** *** Functional updates of the state *)

Definition set_layers (w : Widget) (ls : list (Layer pixel)) : Widget :=
  mkWidget (viewer_dims w) ls (image_layer w) (labels_layer w)
    (shapes_layer w) (cb_image w) (cb_result w) (cb_roi w) (pbar_maximum w).

Definition set_labels_layer (w : Widget) (r : option nat) : Widget :=
  mkWidget (viewer_dims w) (viewer_layers w) (image_layer w) r
    (shapes_layer w) (cb_image w) (cb_result w) (cb_roi w) (pbar_maximum w).

Definition set_image_layer (w : Widget) (r : option nat) : Widget :=
  mkWidget (viewer_dims w) (viewer_layers w) r (labels_layer w)
    (shapes_layer w) (cb_image w) (cb_result w) (cb_roi w) (pbar_maximum w).

Definition set_shapes_layer (w : Widget) (r : option nat) : Widget :=
  mkWidget (viewer_dims w) (viewer_layers w) (image_layer w) (labels_layer w)
    r (cb_image w) (cb_result w) (cb_roi w) (pbar_maximum w).

Definition set_pbar_maximum (w : Widget) (m : nat) : Widget :=
  mkWidget (viewer_dims w) (viewer_layers w) (image_layer w) (labels_layer w)
    (shapes_layer w) (cb_image w) (cb_result w) (cb_roi w) m.

(** *** Layer callbacks *)

(** One of the three loops of [_on_layer_change]: the names of the layers
    that [keep] accepts are added to the combo box, in layer order. *)
Fixpoint add_items (keep : Layer pixel -> res bool) (ls : list (Layer pixel))
    (cb : QComboBox) : res QComboBox :=
  match ls with
  | [] => Ok cb
  | x :: ls' =>
      let* k := keep x in
      add_items keep ls' (if k then addItem cb (layer_name x) else cb)
  end.

(** [isinstance(x, napari.layers.Image)] and [x.data.ndim in [2, 3]]. *)
Definition keep_image (x : Layer pixel) : res bool :=
  match x with
  | Image i =>
      match img_data i with
      | Some d => Ok (bool_decide (np.ndim d = 2 \/ np.ndim d = 3))
      | None => Raise AttributeError
      end
  | _ => Ok false
  end.

Definition keep_labels (x : Layer pixel) : res bool :=
  match x with Labels _ => Ok true | _ => Ok false end.

Definition keep_shapes (x : Layer pixel) : res bool :=
  match x with Shapes _ => Ok true | _ => Ok false end.

(** [if cb.currentText() != '': attr = viewer.layers[cb.currentText()]]. *)
Definition select_layer (ls : list (Layer pixel)) (cb : QComboBox)
    (old : option nat) : res (option nat) :=
  if bool_decide (currentText cb = EmptyString) then Ok old
  else let* r := layers_getitem ls (currentText cb) in Ok (Some r).

Definition _on_layer_change (w : Widget) : res Widget :=
  let ls := viewer_layers w in
  let* cbi := add_items keep_image ls clear in
  let* il := select_layer ls cbi (image_layer w) in
  let* cbr := add_items keep_labels ls clear in
  let* ll := select_layer ls cbr (labels_layer w) in
  let* cbs := add_items keep_shapes ls clear in
  let* sl := select_layer ls cbs (shapes_layer w) in
  Ok (mkWidget (viewer_dims w) ls il ll sl cbi cbr cbs (pbar_maximum w)).

(** The first three conjuncts shared by [_on_slice_change] and
    [_remove_background]: a shapes layer is selected, it holds one shape,
    and that shape is a rectangle.  [and] evaluates from left to right and
    stops at the first false conjunct. *)
Definition single_rectangle (w : Widget) : res bool :=
  let* sl := shapes_layer_obj w in
  match sl with
  | None => Ok false
  | Some s =>
      if negb (nshapes s =? 1) then Ok false
      else
        let* t := first (shp_shape_type s) in
        Ok (String.eqb t "rectangle")
  end.

(** In 3D mode, remove the rectangle ROI on slice change. *)
Definition _on_slice_change (w : Widget) : res Widget :=
  let* c := single_rectangle w in
  if c then
    match shapes_layer w with
    | Some r =>
        let* sl := shapes_layer_obj w in
        match sl with
        | Some s =>
            Ok (set_layers w
                  (<[r := Shapes (mkShapes (shp_name s) [])]> (viewer_layers w)))
        | None => Ok w
        end
    | None => Ok w
    end
  else Ok w.

(** *** The segmentation worker *)

(** The condition of the [if] in [_remove_background].  In
    [not (self.ndim == 3) & (self.axes[0] != 0)] the operator [&] binds
    tighter than [not], and evaluates both of its operands. *)
Definition roi_applies (w : Widget) : res bool :=
  let* c := single_rectangle w in
  if negb c then Ok false
  else
    let* nd := ndim w in
    let* ax := axes w in
    let* a0 := match ax with
               | Some ax => first ax
               | None => Raise TypeError
               end in
    Ok (negb (bool_decide (nd = Some 3) && negb (a0 =? 0))).

(** Lines 178-181: the rasterised ROI, projected along the depth axis for
    a 3D image. *)
Definition roi_mask (w : Widget) : res (ndarray Z) :=
  let* sl := shapes_layer_obj w in
  match sl with
  | None => Raise AttributeError
  | Some s =>
      let* raw := to_labels (viewer_dims w) (shp_data s) in
      let m := astype_uint8 raw in
      let* nd := ndim w in
      if bool_decide (nd = Some 3) then
        let* ax := axes w in
        let* t := transpose_by m ax in
        max_axis0 t
      else Ok m
  end.

Record BBox : Type := mkBBox { x0 : nat; y0 : nat; x1 : nat; y1 : nat }.

(** Lines 183-188: the bounding box of the first region. *)
Definition roi_bbox (m : ndarray Z) : res BBox :=
  let* bbox := skimage.regionprops_table m in
  let* c0 := skimage.column bbox 0 in
  let* a := first c0 in
  let* c1 := skimage.column bbox 1 in
  let* b := first c1 in
  let* c2 := skimage.column bbox 2 in
  let* c := first c2 in
  let* c3 := skimage.column bbox 3 in
  let* d := first c3 in
  Ok (mkBBox a b c d).

(** Lines 190-193: predict on the crop and paste the result into a zero
    mask of the slice's first two extents. *)
Definition segment_roi (image : ndarray pixel) (bb : BBox) : res (ndarray Z) :=
  let segmentation := zeros (take 2 (shape image)) in
  let* crop := slice2 image (x0 bb) (x1 bb) (y0 bb) (y1 bb) in
  let* segmentation_roi_adjusted := rembg_predict crop in
  let* target := slice2 segmentation (x0 bb) (x1 bb) (y0 bb) (y1 bb) in
  let* b := assign target segmentation_roi_adjusted in
  Ok (with_buf segmentation b).

Definition _remove_background (w : Widget) : res (ndarray Z) :=
  let* sl := image_data_slice w in
  match sl with
  | None => Raise AttributeError
  | Some sl =>
      let image_data_slice_roi_adjusted := copy sl in
      let* roi := roi_applies w in
      if roi then
        let* m := roi_mask w in
        let* bb := roi_bbox m in
        segment_roi image_data_slice_roi_adjusted bb
      else rembg_predict image_data_slice_roi_adjusted
  end.

(** The part of [_trigger_remove_background] that runs before the worker
    is started: [None] when the trigger declines (3D rendering view, or no
    image in the combo box), otherwise the state the worker starts from. *)
Definition _trigger_remove_background (w : Widget) : res (option Widget) :=
  if is_in_3d_view w then Ok None
  else if bool_decide (currentText (cb_image w) = EmptyString) then Ok None
  else
    let* r := layers_getitem (viewer_layers w) (currentText (cb_image w)) in
    let* s := if bool_decide (currentText (cb_roi w) = EmptyString)
              then Ok None
              else let* q := layers_getitem (viewer_layers w)
                               (currentText (cb_roi w)) in
                   Ok (Some q) in
    Ok (Some (set_pbar_maximum
                (set_shapes_layer (set_image_layer w (Some r)) s) 0)).

(** *** Applying the result *)

(** The shape of [np.mean(a, axis=2)]. *)
Definition mean_axis2_shape (sh : list nat) : res (list nat) :=
  if 2 <? length sh then Ok (take 2 sh ++ drop 3 sh) else Raise AxisError.

(** Lines 220-223: the array handed to [viewer.add_labels].  With no array
    in the image layer, [np.zeros_like(None)] is a 0-d array and
    [np.mean(None, axis=2)] raises. *)
Definition new_label_volume (w : Widget) : res (ndarray Z) :=
  let* il := image_layer_obj w in
  match il with
  | None => Raise AttributeError
  | Some i =>
      let* d := image_data w in
      if rgb i then
        match d with
        | Some img =>
            let* sh := mean_axis2_shape (shape img) in Ok (zeros sh)
        | None => Raise AxisError
        end
      else
        match d with
        | Some img => Ok (zeros_like img)
        | None => Ok (zeros [])
        end
  end.

(** [viewer.add_labels(data, name=...)]: the new layer (selected label 1)
    is appended to the layer list, which fires [layers.events.inserted]
    and so runs [_on_layer_change]; the new layer is returned. *)
Definition add_labels (w : Widget) (data : ndarray Z) (name : string)
    : res (Widget * nat) :=
  let ls := viewer_layers w in
  let l := Labels (mkLabels (coerce_name (layer_name <$> ls) name) data 1) in
  let* w' := _on_layer_change (set_layers w (ls ++ [l])) in
  Ok (w', length ls).

(** Lines 219-225: the label layer the mask is written to. *)
Definition resolve_labels_layer (w : Widget) : res Widget :=
  if bool_decide (currentText (cb_result w) = EmptyString) then
    let* data := new_label_volume w in
    let* wr := add_labels w data "Foreground mask" in
    Ok (set_labels_layer wr.1 (Some wr.2))
  else
    let* r := layers_getitem (viewer_layers w) (currentText (cb_result w)) in
    Ok (set_labels_layer w (Some r)).

(** Lines 229-232, the masked write, as a function of the label volume:
    [data[mask] = label] for a 2D image, and
    [data.transpose(axes)[current_step][mask] = label] for a 3D one.  The
    write goes through a view, so the result is [data] over the written
    buffer; indexing with a step vector copies, and the write is lost.
    [ax] and [cs] are the values of the [axes] and [current_step]
    properties, evaluated in the order of the source. *)
Definition apply_mask (data : ndarray Z) (mask : ndarray bool)
    (nd : option nat) (ax : res (option (list nat))) (cs : res StepIndex)
    (label : Z) : res (ndarray Z) :=
  if bool_decide (nd = Some 2) then
    let* b := setitem_mask data mask label in
    Ok (with_buf data b)
  else if bool_decide (nd = Some 3) then
    let* ax := ax in
    let* t := transpose_by data ax in
    let* cs := cs in
    match cs with
    | StepScalar k =>
        let* view := index0 t k in
        let* b := setitem_mask view mask label in
        Ok (with_buf data b)
    | StepVector ks =>
        let* tmp := take0 t ks in
        let* _ := setitem_mask tmp mask label in
        Ok data
    end
  else Ok data.

Definition _thread_returned (w : Widget) (segmentation : ndarray Z)
    : res Widget :=
  let* w1 := resolve_labels_layer w in
  let mask := gt0 segmentation in
  let* nd := ndim w1 in
  let* w2 :=
    if bool_decide (nd = Some 2 \/ nd = Some 3) then
      let* v := selected_label w1 in
      let* ll := labels_layer_obj w1 in
      match v, ll, labels_layer w1 with
      | Some v, Some b, Some r =>
          let* data := apply_mask (lbl_data b) mask nd (axes w1)
                         (current_step w1) v in
          Ok (set_layers w1
                (<[r := Labels (mkLabels (lbl_name b) data
                                  (lbl_selected_label b))]>
                   (viewer_layers w1)))
      | _, _, _ => Raise AttributeError
      end
    else Ok w1 in
  Ok (set_pbar_maximum w2 1).

(** Every image layer of the viewer holds an array, as napari ensures. *)
Definition images_have_data (ls : list (Layer pixel)) : Prop :=
  Forall (fun l => match l with
                   | Image i => is_Some (img_data i)
                   | _ => True
                   end) ls.

End Widget.

(* ================================================================= *)
(** ** Concrete viewer states

    Small states on which the statements below are instantiated: integer
    images, a predictor that marks every pixel as foreground, and a viewer
    showing axes 0 and 2 of a 3D image at step 1 of axis 1. *)

Module Ex.

Definition img3 : ndarray Z :=
  tabulate [2; 2; 2] (fun idx =>
    match idx with
    | [a; b; c] => Z.of_nat (4 * a + 2 * b + c)
    | _ => 0%Z
    end).

Definition img2 : ndarray Z := tabulate [3; 3] (fun _ => 7%Z).

Definition rect : Shape :=
  mkShape "rectangle" [[1; 1]; [1; 3]; [3; 3]; [3; 1]]%Z.

Definition roi : ShapesLayer := mkShapes "roi" [rect].

Definition image3 : ImageLayer Z := mkImage "image" (Some img3) false.
Definition image2 : ImageLayer Z := mkImage "image" (Some img2) false.

(** A 3D image seen through axes 0 and 2; the depth axis is axis 1. *)
Definition w3 : RemBGWidget Z :=
  mkWidget (mkDims 2 [0; 2] [0; 1; 0])
    [Image image3; Shapes roi] (Some 0) None (Some 1)
    (mkCombo ["image"] (Some 0)) clear (mkCombo ["roi"] (Some 0)) 0.

(** A 2D image with a rectangle ROI. *)
Definition w2 : RemBGWidget Z :=
  mkWidget (mkDims 2 [0; 1] [0; 0])
    [Image image2; Shapes roi] (Some 0) None (Some 1)
    (mkCombo ["image"] (Some 0)) clear (mkCombo ["roi"] (Some 0)) 0.

(** The slice of [img3] visible in [w3]: [img3[:, 1, :]]. *)
Definition slice3 : ndarray Z := NdArray (buf img3) 2 [2; 2] [4; 1].

(** A predictor output with four opaque channels everywhere. *)
Definition all_foreground (image : ndarray Z) : res (ndarray Z) :=
  Ok (tabulate (take 2 (shape image) ++ [4]) (fun _ => 255%Z)).

(** A rasterisation that leaves every pixel unlabelled. *)
Definition no_pixels (d : Dims) (s : list Shape) : res (ndarray Z) :=
  Ok (zeros [3; 3]).

Definition keep_name (existing : list string) (name : string) : string := name.

(** A rasterisation of [rect] on a 4 x 4 grid: label 1 on rows and
    columns 1 and 2. *)
Definition rect_pixels (d : Dims) (s : list Shape) : res (ndarray Z) :=
  Ok (tabulate [4; 4] (fun idx =>
        match idx with
        | [i; j] =>
            if (1 <=? i) && (i <? 3) && (1 <=? j) && (j <? 3) then 1%Z else 0%Z
        | _ => 0%Z
        end)).

Definition box : BBox := mkBBox 1 1 3 3.

Definition crop2 : ndarray Z := NdArray (buf img2) 4 [2; 2] [3; 1].

Definition ones22 : ndarray Z := tabulate [2; 2] (fun _ => 1%Z).

Definition lab3 : ndarray Z := zeros [2; 2; 2].

Definition diagonal : ndarray bool :=
  tabulate [2; 2] (fun idx =>
    match idx with
    | [i; j] => i =? j
    | _ => false
    end).

(** [lab3] after label 5 has been written through [diagonal] at step 1 of
    axis 1. *)
Definition lab3_written : ndarray Z :=
  with_buf lab3 [0; 0; 5; 0; 0; 0; 0; 5]%Z.

End Ex.

(* ================================================================= *)
(** * Facts about arrays and views *)

Section ArrayFacts.
Context {A : Type}.

Lemma in_bounds_length sh idx : in_bounds sh idx = true -> length idx = length sh.
Proof.
  revert idx; induction sh as [|n sh IH]; intros [|i idx]; simpl; try done.
  intros [_ ?]%andb_prop. f_equal. by apply IH.
Qed.

Lemma elem_of_ndindex sh idx : idx ∈ ndindex sh <-> in_bounds sh idx = true.
Proof.
  revert idx; induction sh as [|n sh IH]; intros idx; simpl.
  - rewrite list_elem_of_singleton. destruct idx; split; try done.
  - rewrite list_elem_of_bind. split.
    + intros (i & Hin & Hi). apply list_elem_of_fmap in Hin as (idx' & -> & Hin).
      apply elem_of_seq in Hi. simpl. apply andb_true_intro. split.
      * apply Nat.ltb_lt. lia.
      * by apply IH.
    + destruct idx as [|i idx']; [done|]. intros [Hi Hb]%andb_prop.
      exists i. split.
      * apply list_elem_of_fmap. exists idx'. split; [done|]. by apply IH.
      * apply elem_of_seq. apply Nat.ltb_lt in Hi. lia.
Qed.

Lemma length_ndindex sh : length (ndindex sh) = prod_list sh.
Proof.
  induction sh as [|n sh IH]; simpl; [done|].
  generalize 0. induction n as [|n IHn]; intros s; simpl; [done|].
  rewrite length_app, length_fmap, IH, IHn. done.
Qed.

Lemma dot_c_strides_lt sh idx :
  in_bounds sh idx = true -> dot idx (c_strides sh) < prod_list sh.
Proof.
  revert idx; induction sh as [|n sh IH]; intros [|i idx]; simpl; try done.
  - lia.
  - intros [Hi Hb]%andb_prop. apply Nat.ltb_lt in Hi. apply IH in Hb. nia.
Qed.

Lemma ndindex_lookup sh idx :
  in_bounds sh idx = true -> ndindex sh !! dot idx (c_strides sh) = Some idx.
Proof.
  revert idx; induction sh as [|n sh IH]; intros [|i idx]; simpl; try done.
  intros [Hi Hb]%andb_prop. apply Nat.ltb_lt in Hi.
  pose proof (dot_c_strides_lt _ _ Hb) as Hlt. specialize (IH _ Hb).
  revert Hlt IH. generalize (dot idx (c_strides sh)). intros q Hlt IH.
  assert (Hgen : forall s k, k < n ->
    (seq s n ≫= (fun i0 => cons i0 <$> ndindex sh)) !! (k * prod_list sh + q)
    = Some ((s + k) :: idx)).
  { clear Hi. induction n as [|n IHn]; intros s k Hk; [lia|].
    simpl. destruct k as [|k].
    - rewrite lookup_app_l by (rewrite length_fmap, length_ndindex; lia).
      simpl. rewrite list_lookup_fmap, IH. simpl. do 2 f_equal. lia.
    - rewrite lookup_app_r by (rewrite length_fmap, length_ndindex; simpl; lia).
      rewrite length_fmap, length_ndindex.
      replace (S k * prod_list sh + q - prod_list sh) with (k * prod_list sh + q)
        by (simpl; lia).
      rewrite IHn by lia. do 2 f_equal. lia. }
  by rewrite (Hgen 0 i Hi).
Qed.

Lemma item_tabulate `{Inhabited A} sh (f : list nat -> A) idx :
  in_bounds sh idx = true -> item (tabulate sh f) idx = f idx.
Proof.
  intros Hb. unfold item, flat_pos, tabulate. simpl.
  apply list_lookup_total_correct.
  by rewrite list_lookup_fmap, ndindex_lookup.
Qed.


Lemma NoDup_ndindex sh : NoDup (ndindex sh).
Proof.
  induction sh as [|n sh IH]; simpl.
  - apply NoDup_singleton.
  - apply NoDup_bind.
    + intros i1 i2 idx _ _ H1 H2.
      apply list_elem_of_fmap in H1 as (? & -> & _).
      apply list_elem_of_fmap in H2 as (? & [= ->] & _). done.
    + intros i _. apply NoDup_fmap_2; [|done]. by intros ?? [=].
    + apply NoDup_seq.
Qed.

(** Buffer writes folded over a list of indices. *)
Section Writes.
Context (pos : list nat -> nat) (sel : list nat -> bool).

Lemma length_write_list (f : list nat -> A) l b :
  length (write_list pos sel f b l) = length b.
Proof.
  unfold write_list. revert b; induction l as [|x l IH]; intros b; simpl; [done|].
  rewrite IH. destruct (sel x); [apply length_insert|done].
Qed.

Lemma write_list_frame (f : list nat -> A) l b p :
  (forall idx, idx ∈ l -> sel idx = true -> pos idx <> p) ->
  write_list pos sel f b l !! p = b !! p.
Proof.
  unfold write_list. revert b; induction l as [|x l IH]; intros b Hp; simpl; [done|].
  rewrite IH by (intros; apply Hp; [by right|done]).
  destruct (sel x) eqn:Hs; [|done].
  apply list_lookup_insert_ne. apply Hp; [by left|done].
Qed.

Lemma write_list_cons (f : list nat -> A) x l b :
  write_list pos sel f b (x :: l)
  = write_list pos sel f (if sel x then <[pos x := f x]> b else b) l.
Proof. done. Qed.

Lemma write_list_hit (f : list nat -> A) l b idx :
  NoDup (pos <$> l) -> idx ∈ l -> sel idx = true -> pos idx < length b ->
  write_list pos sel f b l !! pos idx = Some (f idx).
Proof.
  revert b; induction l as [|x l IH]; intros b Hnd Hin Hs Hlt.
  - by apply elem_of_nil in Hin.
  - rewrite write_list_cons. simpl in Hnd. apply NoDup_cons in Hnd as [Hx Hnd].
    destruct (decide (pos x = pos idx)) as [Heq|Hne].
    + assert (idx ∉ l) as Hnotin.
      { intros Hl. apply Hx. rewrite Heq. by apply list_elem_of_fmap_2. }
      apply elem_of_cons in Hin as [->|Hl]; [|done].
      rewrite write_list_frame.
      * rewrite Hs. by apply list_lookup_insert_eq.
      * intros y Hy _ Hpy. apply Hx. rewrite <- Hpy. by apply list_elem_of_fmap_2.
    + apply elem_of_cons in Hin as [->|Hl]; [done|].
      apply IH; try done. destruct (sel x); [|done].
      by rewrite length_insert.
Qed.

Lemma write_list_miss (f : list nat -> A) l b idx :
  NoDup (pos <$> l) -> idx ∈ l -> sel idx = false ->
  write_list pos sel f b l !! pos idx = b !! pos idx.
Proof.
  intros Hnd Hin Hs. apply write_list_frame. intros y Hy Hsy Hpy.
  assert (y = idx) as ->; [|congruence].
  clear -Hnd Hin Hy Hpy. induction l as [|x l IH]; [by apply elem_of_nil in Hin|].
  simpl in Hnd. apply NoDup_cons in Hnd as [Hx Hnd].
  apply elem_of_cons in Hin as [->|Hin]; apply elem_of_cons in Hy as [->|Hy]; auto.
  - exfalso. apply Hx. rewrite <- Hpy. by apply list_elem_of_fmap_2.
  - exfalso. apply Hx. rewrite Hpy. by apply list_elem_of_fmap_2.
Qed.

(** Writing one value: what a cell holds afterwards does not depend on
    the order of the writes, so writing twice is writing once. *)
Lemma write_list_const_lookup (v : A) (l : list (list nat)) (b : list A) (p : nat) :
  write_list pos sel (fun _ => v) b l !! p
  = if bool_decide (p < length b
                    /\ Exists (fun idx => sel idx = true /\ pos idx = p) l)
    then Some v else b !! p.
Proof.
  revert b; induction l as [|x l IH]; intros b.
  - unfold write_list. simpl. case_bool_decide as Hc; [|done].
    destruct Hc as [_ Hc]. by apply Exists_nil in Hc.
  - rewrite write_list_cons, IH.
    set (P := fun idx => sel idx = true /\ pos idx = p).
    assert (length (if sel x then <[pos x:=v]> b else b) = length b) as ->
      by (destruct (sel x); [apply length_insert|done]).
    destruct (decide (p < length b)) as [Hlt|Hge].
    2: { rewrite !bool_decide_eq_false_2 by (intros [? _]; lia).
         destruct (sel x); [|done].
         destruct (decide (pos x = p)) as [<-|Hne];
           [by rewrite list_insert_ge by lia|by apply list_lookup_insert_ne]. }
    destruct (decide (Exists P l)) as [HE|HnE].
    { rewrite !bool_decide_eq_true_2; [done|split; [done|by right]|by split]. }
    rewrite (bool_decide_eq_false_2 (p < length b /\ Exists P l))
      by (intros [_ ?]; done).
    destruct (sel x) eqn:Hs.
    + destruct (decide (pos x = p)) as [<-|Hne].
      * rewrite bool_decide_eq_true_2 by (split; [done|by left]).
        by apply list_lookup_insert_eq.
      * rewrite bool_decide_eq_false_2; [by apply list_lookup_insert_ne|].
        intros [_ [[_ ?]|?]%Exists_cons]; done.
    + rewrite bool_decide_eq_false_2; [done|].
      intros [_ [[? _]|?]%Exists_cons]; [congruence|done].
Qed.

Lemma write_list_const_idem (v : A) (l : list (list nat)) (b : list A) :
  write_list pos sel (fun _ => v) (write_list pos sel (fun _ => v) b l) l
  = write_list pos sel (fun _ => v) b l.
Proof.
  apply list_eq. intros p. rewrite !write_list_const_lookup.
  rewrite length_write_list. case_bool_decide; done.
Qed.

End Writes.

Lemma wf_bound (a : ndarray A) idx :
  wf a -> in_bounds (shape a) idx = true -> flat_pos a idx < length (buf a).
Proof.
  intros (_ & Hb & _) Hin. rewrite Forall_forall in Hb. apply Hb.
  apply list_elem_of_fmap_2. by apply elem_of_ndindex.
Qed.

Lemma NoDup_fmap_inj_on {B C} (g : B -> C) (l : list B) x y :
  NoDup (g <$> l) -> x ∈ l -> y ∈ l -> g x = g y -> x = y.
Proof.
  induction l as [|z l IH]; intros Hnd Hx Hy Hg; [by apply elem_of_nil in Hx|].
  simpl in Hnd. apply NoDup_cons in Hnd as [Hz Hnd].
  apply elem_of_cons in Hx as [->|Hx]; apply elem_of_cons in Hy as [->|Hy]; auto.
  - exfalso. apply Hz. rewrite Hg. by apply list_elem_of_fmap_2.
  - exfalso. apply Hz. rewrite <- Hg. by apply list_elem_of_fmap_2.
Qed.

Lemma wf_inj (a : ndarray A) i j :
  wf a -> in_bounds (shape a) i = true -> in_bounds (shape a) j = true ->
  flat_pos a i = flat_pos a j -> i = j.
Proof.
  intros (_ & _ & Hnd) Hi Hj. apply (NoDup_fmap_inj_on _ _ _ _ Hnd);
    by apply elem_of_ndindex.
Qed.

Lemma wf_intro (a : ndarray A) :
  length (strides a) = length (shape a) ->
  (forall idx, in_bounds (shape a) idx = true -> flat_pos a idx < length (buf a)) ->
  (forall i j, in_bounds (shape a) i = true -> in_bounds (shape a) j = true ->
     flat_pos a i = flat_pos a j -> i = j) ->
  wf a.
Proof.
  intros Hl Hb Hi. split; [done|]. split.
  - apply Forall_forall. intros p (idx & -> & Hin)%list_elem_of_fmap.
    apply Hb. by apply elem_of_ndindex.
  - apply NoDup_fmap_2_strong; [|apply NoDup_ndindex].
    intros i j Hin Hjn. apply Hi; by apply elem_of_ndindex.
Qed.

Lemma length_c_strides sh : length (c_strides sh) = length sh.
Proof. induction sh; simpl; auto. Qed.

Lemma dot_c_strides_inj sh i j :
  in_bounds sh i = true -> in_bounds sh j = true ->
  dot i (c_strides sh) = dot j (c_strides sh) -> i = j.
Proof.
  revert i j; induction sh as [|n sh IH]; intros [|a i] [|b j]; simpl; try done.
  intros [_ Hi]%andb_prop [_ Hj]%andb_prop Heq.
  pose proof (dot_c_strides_lt _ _ Hi). pose proof (dot_c_strides_lt _ _ Hj).
  assert (a = b) as -> by nia. f_equal. apply IH; try done. lia.
Qed.

Lemma wf_tabulate sh (f : list nat -> A) : wf (tabulate sh f).
Proof.
  apply wf_intro; simpl.
  - apply length_c_strides.
  - intros idx Hin. unfold flat_pos. simpl.
    rewrite length_fmap, length_ndindex. by apply dot_c_strides_lt.
  - unfold flat_pos. simpl. intros i j Hi Hj Heq.
    by apply (dot_c_strides_inj sh).
Qed.

Lemma length_write_where (a : ndarray A) sel f :
  length (write_where a sel f) = length (buf a).
Proof. apply length_write_list. Qed.

Lemma write_where_frame (a : ndarray A) sel f p :
  (forall idx, in_bounds (shape a) idx = true -> flat_pos a idx <> p) ->
  write_where a sel f !! p = buf a !! p.
Proof.
  intros Hp. apply write_list_frame. intros idx Hin _.
  apply Hp. by apply elem_of_ndindex.
Qed.

Lemma item_lookup `{Inhabited A} (a : ndarray A) idx :
  wf a -> in_bounds (shape a) idx = true ->
  buf a !! flat_pos a idx = Some (item a idx).
Proof.
  intros Hwf Hin. apply list_lookup_lookup_total_lt. by apply wf_bound.
Qed.

Lemma write_where_item `{Inhabited A} (a : ndarray A) sel f idx :
  wf a -> in_bounds (shape a) idx = true ->
  write_where a sel f !! flat_pos a idx
  = Some (if sel idx then f idx else item a idx).
Proof.
  intros Hwf Hin. destruct (sel idx) eqn:Hs.
  - apply write_list_hit; [apply Hwf|by apply elem_of_ndindex|done|by apply wf_bound].
  - unfold write_where. rewrite write_list_miss;
      [by apply item_lookup|apply Hwf|by apply elem_of_ndindex|done].
Qed.

Lemma write_where_const_idem (a : ndarray A) sel v :
  write_where (with_buf a (write_where a sel (fun _ => v))) sel (fun _ => v)
  = write_where a sel (fun _ => v).
Proof.
  apply (write_list_const_idem (flat_pos a) sel v (ndindex (shape a)) (buf a)).
Qed.

End ArrayFacts.

Lemma item_zeros sh idx : in_bounds sh idx = true -> item (zeros sh) idx = 0%Z.
Proof. intros Hin. unfold zeros. by rewrite item_tabulate. Qed.

Ltac list3 l H :=
  destruct l as [|? [|? [|? [|? ?]]]]; try discriminate H.

Ltac perm3 ax H :=
  destruct ax as [|[|[|[|?]]] [|[|[|[|?]]] [|[|[|[|?]]] [|? ?]]]];
  try (vm_compute in H; discriminate H).

Section Views.
Context {A : Type}.

Lemma untranspose_at ax k i j :
  is_perm 3 ax = true ->
  untranspose ax [k; i; j] !!! (ax !!! 0) = k
  /\ untranspose ax [k; i; j] !!! (ax !!! 1) = i
  /\ untranspose ax [k; i; j] !!! (ax !!! 2) = j
  /\ length (untranspose ax [k; i; j]) = 3.
Proof. intros Hp. perm3 ax Hp; done. Qed.

Lemma untranspose_surj ax c :
  is_perm 3 ax = true -> length c = 3 ->
  c = untranspose ax [c !!! (ax !!! 0); c !!! (ax !!! 1); c !!! (ax !!! 2)].
Proof. intros Hp Hc. list3 c Hc. perm3 ax Hp; done. Qed.

Lemma transpose_index0_3d (L : ndarray A) ax k :
  length (shape L) = 3 -> length (strides L) = 3 ->
  is_perm 3 ax = true -> k < shape L !!! (ax !!! 0) ->
  exists v, (let* t := transpose L ax in index0 t k) = Ok v
    /\ buf v = buf L
    /\ shape v = [shape L !!! (ax !!! 1); shape L !!! (ax !!! 2)]
    /\ length (strides v) = 2
    /\ (forall i j, flat_pos v [i; j] = flat_pos L (untranspose ax [k; i; j]))
    /\ (forall i j, in_bounds (shape v) [i; j] = true ->
          in_bounds (shape L) (untranspose ax [k; i; j]) = true).
Proof.
  destruct L as [b o sh st]. simpl. intros Hsh Hst Hp Hk.
  list3 sh Hsh. list3 st Hst. unfold transpose, np.ndim. simpl.
  perm3 ax Hp; simpl in Hk; unfold index0; simpl;
    (match goal with |- context [?a <? ?b] =>
       destruct (Nat.ltb_spec a b) as [_|?]; [|lia] end);
    eexists; (split; [reflexivity|]); simpl;
    (split; [done|]); (split; [done|]); (split; [done|]);
    (split; intros i j; unfold flat_pos; simpl; [lia|]);
    rewrite ?andb_true_r; intros [? ?]%andb_prop;
    repeat (apply andb_true_intro; split); try done; by apply Nat.ltb_lt.
Qed.


Lemma check_axes_Ok n seen ax :
  check_axes n seen ax = Ok tt ->
  forallb (fun k => k <? n) ax = true /\ NoDup ax /\ (forall k, k ∈ ax -> k ∉ seen).
Proof.
  revert seen; induction ax as [|k ax IH]; intros seen; simpl.
  - intros _. split; [done|]. split; [apply NoDup_nil_2|].
    intros k Hk. by apply elem_of_nil in Hk.
  - destruct (k <? n); [|done]. simpl. case_bool_decide as Hs; [done|].
    intros (Hf & Hnd & Hdis)%IH. split; [done|]. split.
    + apply NoDup_cons. split; [|done]. intros Hk. apply (Hdis k Hk). by left.
    + intros k' [->|Hk']%elem_of_cons; [done|].
      intros Hin. apply (Hdis k' Hk'). by right.
Qed.

Lemma transpose_Ok (L : ndarray A) ax t :
  transpose L ax = Ok t -> is_perm (np.ndim L) ax = true.
Proof.
  unfold transpose, is_perm. destruct (length ax =? np.ndim L); [|done]. simpl.
  destruct (check_axes _ _ _) as [[]|] eqn:Hc; [|done]. intros _.
  apply check_axes_Ok in Hc as (-> & Hnd & _). simpl.
  by apply bool_decide_eq_true_2.
Qed.

Lemma index0_Ok (t v : ndarray A) k :
  index0 t k = Ok v -> k < shape t !!! 0.
Proof.
  unfold index0. destruct (shape t) as [|n sh]; [done|].
  destruct (strides t); [done|]. simpl.
  destruct (Nat.ltb_spec k n); [done|discriminate].
Qed.

Lemma shape_transpose (L : ndarray A) ax t :
  transpose L ax = Ok t -> shape t = (fun k => shape L !!! k) <$> ax.
Proof.
  unfold transpose. destruct (negb _); [done|].
  destruct (check_axes _ _ _); [|done]. by intros [= <-].
Qed.

(** A slice of a transposed 3D array is a well-formed view of its base,
    and its elements are the elements of the base at the untransposed
    coordinates. *)
Lemma view3_facts (L : ndarray A) ax k t v :
  wf L -> np.ndim L = 3 -> transpose L ax = Ok t -> index0 t k = Ok v ->
  is_perm 3 ax = true
  /\ k < shape L !!! (ax !!! 0)
  /\ buf v = buf L
  /\ shape v = [shape L !!! (ax !!! 1); shape L !!! (ax !!! 2)]
  /\ (forall i j, flat_pos v [i; j] = flat_pos L (untranspose ax [k; i; j]))
  /\ (forall i j, in_bounds (shape v) [i; j] = true ->
        in_bounds (shape L) (untranspose ax [k; i; j]) = true)
  /\ wf v.
Proof.
  intros Hwf Hnd Ht Hv.
  assert (Hp : is_perm 3 ax = true) by (rewrite <- Hnd; by eapply transpose_Ok).
  assert (Hk : k < shape L !!! (ax !!! 0)).
  { apply index0_Ok in Hv. rewrite (shape_transpose _ _ _ Ht) in Hv.
    perm3 ax Hp; exact Hv. }
  destruct (transpose_index0_3d L ax k) as (v' & Hv' & Hb & Hs & Hl & Hpos & Hin);
    [done|by rewrite (proj1 Hwf)|done|done|].
  rewrite Ht in Hv'. simpl in Hv'. rewrite Hv in Hv'. injection Hv' as <-.
  do 6 (split; [done|]).
  apply wf_intro.
  - by rewrite Hl, Hs.
  - intros idx Hi. pose proof (in_bounds_length _ _ Hi) as Hlen.
    rewrite Hs in Hlen. destruct idx as [|i [|j [|? ?]]]; try done.
    rewrite Hpos, Hb. apply wf_bound; [done|]. by apply Hin.
  - intros i j Hi Hj Heq.
    pose proof (in_bounds_length _ _ Hi) as Hli.
    pose proof (in_bounds_length _ _ Hj) as Hlj. rewrite Hs in Hli, Hlj.
    destruct i as [|i1 [|i2 [|? ?]]]; try done.
    destruct j as [|j1 [|j2 [|? ?]]]; try done.
    rewrite !Hpos in Heq. apply wf_inj in Heq; [|done|by apply Hin..].
    destruct (untranspose_at ax k i1 i2 Hp) as (_ & H1 & H2 & _).
    destruct (untranspose_at ax k j1 j2 Hp) as (_ & H3 & H4 & _).
    rewrite Heq in H1, H2. congruence.
Qed.

Lemma item_with_buf `{Inhabited A} (a : ndarray A) b idx x :
  b !! flat_pos a idx = Some x -> item (with_buf a b) idx = x.
Proof. intros Hx. by apply list_lookup_total_correct. Qed.

(** The masked write through a slice of a transposed 3D array. *)
Lemma masked_view_write `{Inhabited A} (L : ndarray A) ax k t view mask x b :
  wf L -> np.ndim L = 3 -> transpose L ax = Ok t -> index0 t k = Ok view ->
  setitem_mask view mask x = Ok b ->
  (forall i j, in_bounds (shape view) [i; j] = true ->
     item (with_buf L b) (untranspose ax [k; i; j])
     = if item mask (take (np.ndim mask) [i; j]) then x
       else item L (untranspose ax [k; i; j]))
  /\ (forall c, in_bounds (shape L) c = true -> c !!! (ax !!! 0) <> k ->
        item (with_buf L b) c = item L c).
Proof.
  intros Hwf Hnd Ht Hv Hset.
  destruct (view3_facts L ax k t view Hwf Hnd Ht Hv)
    as (Hp & Hk & Hb & Hs & Hpos & Hin & Hwv).
  unfold setitem_mask in Hset. case_bool_decide; [|done].
  injection Hset as <-. split.
  - intros i j Hij. apply item_with_buf. rewrite <- Hpos.
    rewrite write_where_item by done. f_equal.
    destruct (item mask _); [done|].
    unfold item. by rewrite Hpos, Hb.
  - intros c Hc Hne. apply item_with_buf.
    rewrite write_where_frame.
    + rewrite Hb. by apply item_lookup.
    + intros idx Hi Heq. pose proof (in_bounds_length _ _ Hi) as Hlen.
      rewrite Hs in Hlen. destruct idx as [|i [|j [|? ?]]]; try done.
      rewrite Hpos in Heq. apply wf_inj in Heq; [|done|by apply Hin|done].
      apply Hne. rewrite <- Heq. by apply untranspose_at.
Qed.

End Views.

(* ================================================================= *)
(** * Properties of the widget *)

Section SliceAndWorker.
Context {pixel : Type} `{Inhabited pixel}.
Variable rembg_remove : ndarray pixel -> res (ndarray Z).
Variable to_labels : Dims -> list Shape -> res (ndarray Z).
Variable coerce_name : list string -> string -> string.

Implicit Types w : RemBGWidget pixel.

Lemma image_data_of w il :
  image_layer_obj w = Ok (Some il) -> image_data w = Ok (img_data il).
Proof. unfold image_data. by intros ->. Qed.

Lemma ndim_of w il img :
  image_layer_obj w = Ok (Some il) -> img_data il = Some img ->
  ndim w = Ok (Some (if rgb il then 2 else np.ndim img)).
Proof. unfold ndim. intros -> Hd. simpl. rewrite Hd. by destruct (rgb il). Qed.

(** C8: for a 2D image, and for an RGB image (which the widget treats as
    2D), the slice extractor returns the array of the image layer itself,
    unchanged. *)
Theorem image_data_slice_2d w il img :
  image_layer_obj w = Ok (Some il) -> img_data il = Some img ->
  rgb il = true \/ np.ndim img = 2 ->
  image_data_slice w = Ok (Some img).
Proof.
  intros Hil Hd Hk. unfold image_data_slice.
  rewrite (image_data_of _ _ Hil), Hd. simpl.
  rewrite (ndim_of _ _ _ Hil Hd). simpl.
  destruct Hk as [->| ->]; [done|]. by destruct (rgb il).
Qed.

Lemma is_perm_forall n ax : is_perm n ax = true -> Forall (fun a => a < n) ax.
Proof.
  unfold is_perm. intros [[_ Hf]%andb_prop _]%andb_prop.
  apply Forall_forall. intros a Ha.
  rewrite forallb_forall in Hf. apply Nat.ltb_lt, Hf. by apply list_elem_of_In.
Qed.

(** C3: for a non-RGB 3D image shown in a 2D view, [axes] is the list of
    displayed dimensions with the missing dimension [d] put in front, the
    step is entry [d] of the viewer's step vector, and the visible slice is
    the image transposed by [axes] and indexed along axis 0 at that step;
    when the transposition or the indexing raises, so does the extractor. *)
Theorem image_data_slice_3d w il img d rest :
  image_layer_obj w = Ok (Some il) -> img_data il = Some img ->
  rgb il = false -> np.ndim img = 3 ->
  is_in_3d_view w = false ->
  list_difference [0; 1; 2] (dims_displayed w) = d :: rest ->
  3 <= length (dims_current_step (viewer_dims w)) ->
  axes w = Ok (Some (d :: dims_displayed w))
  /\ current_step w
     = (if forallb (fun a => a <? length (dims_current_step (viewer_dims w)))
             (d :: dims_displayed w)
        then Ok (StepScalar (dims_current_step (viewer_dims w) !!! d))
        else Raise IndexError)
  /\ image_data_slice w
     = (let* t := transpose img (d :: dims_displayed w) in
        let* s := index0 t (dims_current_step (viewer_dims w) !!! d) in
        Ok (Some s)).
Proof.
  intros Hil Hd Hrgb Hnd H3d Hdiff Hcs.
  assert (Hax : axes w = Ok (Some (d :: dims_displayed w))).
  { unfold axes. rewrite H3d, (ndim_of _ _ _ Hil Hd), Hrgb. cbn [rbind].
    rewrite Hnd, bool_decide_eq_true_2 by done. by rewrite Hdiff. }
  split; [done|].
  assert (Hstep : current_step w
     = (if forallb (fun a => a <? length (dims_current_step (viewer_dims w)))
             (d :: dims_displayed w)
        then Ok (StepScalar (dims_current_step (viewer_dims w) !!! d))
        else Raise IndexError)).
  { unfold current_step. rewrite Hax. simpl. by destruct (_ && _). }
  split; [done|].
  unfold image_data_slice.
  rewrite (image_data_of _ _ Hil), Hd. simpl.
  rewrite (ndim_of _ _ _ Hil Hd), Hrgb, Hnd. simpl.
  rewrite Hax. simpl.
  destruct (transpose img (d :: dims_displayed w)) as [t|e] eqn:Ht; [|done].
  simpl. rewrite Hstep.
  assert (forallb (fun a => a <? length (dims_current_step (viewer_dims w)))
            (d :: dims_displayed w) = true) as ->; [|done].
  apply transpose_Ok, is_perm_forall in Ht. rewrite Hnd in Ht.
  apply forallb_forall. intros a Ha%list_elem_of_In.
  rewrite Forall_forall in Ht. apply Nat.ltb_lt. specialize (Ht a Ha). lia.
Qed.

Lemma single_rectangle_true w s sh :
  shapes_layer_obj w = Ok (Some s) -> shp_data s = [sh] ->
  shape_type sh = "rectangle" -> single_rectangle w = Ok true.
Proof.
  unfold single_rectangle, nshapes, shp_shape_type.
  intros -> Hs Ht. cbn [rbind]. rewrite Hs. cbn. by rewrite Ht.
Qed.

(** C1: for a non-RGB 3D image and a selected shapes layer holding exactly
    one rectangle, when the first of the reordered axes is not array axis
    0 the ROI is not used: the worker returns exactly what the predictor
    returns on (a copy of) the whole visible slice, and adds no error. *)
Theorem roi_ignored_in_transposed_view w il img s sh a0 ax sl :
  image_layer_obj w = Ok (Some il) -> img_data il = Some img ->
  rgb il = false -> np.ndim img = 3 ->
  shapes_layer_obj w = Ok (Some s) -> shp_data s = [sh] ->
  shape_type sh = "rectangle" ->
  axes w = Ok (Some (a0 :: ax)) -> a0 <> 0 ->
  image_data_slice w = Ok (Some sl) ->
  roi_applies w = Ok false
  /\ _remove_background rembg_remove to_labels w
     = rembg_predict rembg_remove (copy sl).
Proof.
  intros Hil Hd Hrgb Hnd Hs Hsh Ht Hax Ha0 Hsl.
  assert (Hroi : roi_applies w = Ok false).
  { unfold roi_applies. rewrite (single_rectangle_true _ _ _ Hs Hsh Ht). simpl.
    rewrite (ndim_of _ _ _ Hil Hd), Hrgb, Hnd, Hax. simpl.
    destruct a0; [done|]. done. }
  split; [done|].
  unfold _remove_background. rewrite Hsl. simpl. by rewrite Hroi.
Qed.

(** C9: on a change of the current step, when the selected shapes layer
    holds exactly one shape and it is a rectangle, the layer is emptied.
    Nothing is assumed about the image, so this holds for every image
    dimensionality; the other layers and the selection are unchanged. *)
Theorem on_slice_change_clears_rectangle w r s sh :
  shapes_layer w = Some r -> viewer_layers w !! r = Some (Shapes s) ->
  shp_data s = [sh] -> shape_type sh = "rectangle" ->
  exists w', _on_slice_change w = Ok w'
    /\ viewer_layers w' !! r = Some (Shapes (mkShapes (shp_name s) []))
    /\ (forall q, q <> r -> viewer_layers w' !! q = viewer_layers w !! q)
    /\ image_layer w' = image_layer w /\ shapes_layer w' = shapes_layer w
    /\ viewer_dims w' = viewer_dims w.
Proof.
  intros Hr Hl Hsh Ht.
  assert (Hobj : shapes_layer_obj w = Ok (Some s)).
  { unfold shapes_layer_obj, lookup_layer. by rewrite Hr, Hl. }
  unfold _on_slice_change.
  rewrite (single_rectangle_true _ _ _ Hobj Hsh Ht). simpl.
  rewrite Hr, Hobj. simpl. eexists. split; [done|]. simpl.
  split; [|split; [|done]].
  - apply list_lookup_insert_eq. by eapply lookup_lt_Some.
  - intros q Hq. by apply list_lookup_insert_ne.
Qed.

Lemma omap_none {B C} (f : B -> option C) l :
  (forall x, x ∈ l -> f x = None) -> omap f l = [].
Proof.
  induction l as [|x l IH]; intros Hf; simpl; [done|].
  rewrite (Hf x) by (by left). apply IH. intros y Hy. apply Hf. by right.
Qed.

Lemma filter_none {B} (P : B -> Prop) `{!forall x, Decision (P x)} (l : list B) :
  (forall x, x ∈ l -> ~ P x) -> filter P l = [].
Proof.
  induction l as [|x l IH]; intros Hf; [done|].
  rewrite filter_cons_False by (apply Hf; by left).
  apply IH. intros y Hy. apply Hf. by right.
Qed.

Lemma regionprops_table_empty (m : ndarray Z) :
  np.ndim m = 2 \/ np.ndim m = 3 ->
  (forall idx, in_bounds (shape m) idx = true -> item m idx = 0%Z) ->
  skimage.regionprops_table m = Ok (skimage.BBoxTable (np.ndim m) []).
Proof.
  intros Hnd Hz. unfold skimage.regionprops_table.
  rewrite bool_decide_eq_true_2 by done. do 2 f_equal.
  apply omap_none. intros l Hl%elem_of_seq.
  unfold skimage.region_bbox, skimage.coords.
  assert (filter (fun idx => item m idx = Z.of_nat l) (ndindex (shape m)) = [])
    as ->; [|done].
  apply filter_none.
  intros idx Hidx%elem_of_ndindex. rewrite (Hz _ Hidx). lia.
Qed.

(** C10: when the ROI condition holds and the rasterised ROI holds no
    nonzero pixel, the region table has no row, reading the first entry of
    its first column raises [IndexError], and so does the worker: it
    neither declines nor falls back to the whole slice. *)
Theorem empty_roi_raises w sl m :
  image_data_slice w = Ok (Some sl) ->
  roi_applies w = Ok true ->
  roi_mask to_labels w = Ok m ->
  np.ndim m = 2 \/ np.ndim m = 3 ->
  (forall idx, in_bounds (shape m) idx = true -> item m idx = 0%Z) ->
  roi_bbox m = Raise IndexError
  /\ _remove_background rembg_remove to_labels w = Raise IndexError.
Proof.
  intros Hsl Hroi Hm Hnd Hz.
  assert (Hbb : roi_bbox m = Raise IndexError).
  { unfold roi_bbox. rewrite (regionprops_table_empty m Hnd Hz). simpl.
    unfold skimage.column. simpl. by destruct Hnd as [-> | ->]. }
  split; [done|].
  unfold _remove_background. rewrite Hsl. simpl. rewrite Hroi. simpl.
  rewrite Hm. simpl. by rewrite Hbb.
Qed.

End SliceAndWorker.

Section Crop.
Context {pixel : Type} `{Inhabited pixel}.
Variable rembg_remove : ndarray pixel -> res (ndarray Z).

(** A rectangular window of a well-formed 2D array is a well-formed view
    of it. *)
Lemma slice2_2d_facts {A} (L : ndarray A) a0 a1 b0 b1 n0 n1 :
  wf L -> shape L = [n0; n1] ->
  exists v, slice2 L a0 a1 b0 b1 = Ok v
    /\ buf v = buf L
    /\ shape v = [a1 `min` n0 - a0 `min` n0; b1 `min` n1 - b0 `min` n1]
    /\ (forall i j, flat_pos v [i; j]
                    = flat_pos L [a0 `min` n0 + i; b0 `min` n1 + j])
    /\ wf v.
Proof.
  intros Hwf Hsh. pose proof (proj1 Hwf) as Hlen. rewrite Hsh in Hlen.
  unfold slice2. rewrite Hsh.
  destruct (strides L) as [|s0 [|s1 [|? ?]]] eqn:Hst; try done.
  eexists. split; [done|]. simpl. split; [done|]. split; [done|].
  assert (Hpos : forall i j,
    flat_pos (NdArray (buf L) (offset L + a0 `min` n0 * s0 + b0 `min` n1 * s1)
                [a1 `min` n0 - a0 `min` n0; b1 `min` n1 - b0 `min` n1] [s0; s1])
      [i; j]
    = flat_pos L [a0 `min` n0 + i; b0 `min` n1 + j]).
  { intros i j. unfold flat_pos. rewrite Hst. simpl. lia. }
  split; [done|].
  assert (Hin : forall i j,
    in_bounds [a1 `min` n0 - a0 `min` n0; b1 `min` n1 - b0 `min` n1] [i; j] = true ->
    in_bounds (shape L) [a0 `min` n0 + i; b0 `min` n1 + j] = true).
  { intros i j. rewrite Hsh. simpl. rewrite !andb_true_r.
    intros [?%Nat.ltb_lt ?%Nat.ltb_lt]%andb_prop.
    apply andb_true_intro. split; apply Nat.ltb_lt; lia. }
  apply wf_intro; cbn [shape strides buf].
  - done.
  - intros idx Hi. pose proof (in_bounds_length _ _ Hi) as Hl.
    destruct idx as [|i [|j [|? ?]]]; try done.
    rewrite Hpos. apply wf_bound; [done|]. by apply Hin.
  - intros i j Hi Hj Heq.
    pose proof (in_bounds_length _ _ Hi) as Hli.
    pose proof (in_bounds_length _ _ Hj) as Hlj.
    destruct i as [|i1 [|i2 [|? ?]]]; try done.
    destruct j as [|j1 [|j2 [|? ?]]]; try done.
    rewrite !Hpos in Heq. apply wf_inj in Heq; [|done|by apply Hin..].
    injection Heq as ??. f_equal; [lia|f_equal; lia].
Qed.

(** C2: for every slice, bounding box and predictor output of the crop's
    spatial shape, the mask returned for the ROI has the first two extents
    of the slice, is 0 outside rows [x0 .. x1-1] and columns
    [y0 .. y1-1], and inside the box equals the predictor's output on the
    crop. *)
Theorem segment_roi_outside_zero_inside_prediction
    (image : ndarray pixel) (bb : BBox) crop out :
  slice2 image (x0 bb) (x1 bb) (y0 bb) (y1 bb) = Ok crop ->
  rembg_predict rembg_remove crop = Ok out ->
  shape out = take 2 (shape crop) ->
  exists seg, segment_roi rembg_remove image bb = Ok seg
    /\ shape seg = take 2 (shape image)
    /\ forall i j, in_bounds (shape seg) [i; j] = true ->
         item seg [i; j]
         = if (x0 bb <=? i) && (i <? x1 bb) && (y0 bb <=? j) && (j <? y1 bb)
           then item out [i - x0 bb; j - y0 bb] else 0%Z.
Proof.
  intros Hcrop Hpred Hout. unfold segment_roi. rewrite Hcrop. cbn [rbind].
  rewrite Hpred. cbn [rbind].
  unfold slice2 in Hcrop.
  destruct (shape image) as [|n0 [|n1 sh]] eqn:Hsh; try done.
  destruct (strides image) as [|s0 [|s1 st]]; try done.
  injection Hcrop as <-. cbn [shape] in Hout.
  change (take 2 (?a :: ?b :: sh)) with [a; b] in Hout.
  change (take 2 (n0 :: n1 :: sh)) with [n0; n1].
  destruct (slice2_2d_facts (zeros [n0; n1]) (x0 bb) (x1 bb) (y0 bb) (y1 bb) n0 n1)
    as (target & -> & Hb & Hs & Hpos & Hwt); [apply wf_tabulate|done|].
  cbn [rbind]. unfold assign. rewrite Hs, Hout.
  assert (broadcastable
            [x1 bb `min` n0 - x0 bb `min` n0; y1 bb `min` n1 - y0 bb `min` n1]
            [x1 bb `min` n0 - x0 bb `min` n0; y1 bb `min` n1 - y0 bb `min` n1]
          = true) as ->.
  { unfold broadcastable. simpl. by rewrite !Nat.eqb_refl. }
  cbn [rbind]. eexists. split; [done|]. split; [done|].
  intros i j Hij. simpl in Hij. rewrite andb_true_r in Hij.
  apply andb_prop in Hij as [Hi%Nat.ltb_lt Hj%Nat.ltb_lt].
  assert (Hin0 : in_bounds (shape (zeros [n0; n1])) [i; j] = true).
  { simpl. apply andb_true_intro. split; [by apply Nat.ltb_lt|].
    rewrite andb_true_r. by apply Nat.ltb_lt. }
  destruct ((x0 bb <=? i) && (i <? x1 bb) && (y0 bb <=? j) && (j <? y1 bb))
    eqn:Hbox.
  - apply andb_prop in Hbox as [[[Ha%Nat.leb_le Hb'%Nat.ltb_lt]%andb_prop
      Hc%Nat.leb_le]%andb_prop Hd%Nat.ltb_lt].
    apply item_with_buf.
    replace (flat_pos (zeros [n0; n1]) [i; j])
      with (flat_pos target [i - x0 bb; j - y0 bb]).
    2: { rewrite Hpos. do 2 f_equal; [lia|f_equal; lia]. }
    rewrite write_where_item; [|done|].
    + f_equal. unfold broadcast_index. simpl.
      do 2 f_equal.
      * destruct (Nat.eqb_spec (x1 bb `min` n0 - x0 bb `min` n0) 1); lia.
      * f_equal. destruct (Nat.eqb_spec (y1 bb `min` n1 - y0 bb `min` n1) 1); lia.
    + rewrite Hs. simpl. apply andb_true_intro. split; [apply Nat.ltb_lt; lia|].
      rewrite andb_true_r. apply Nat.ltb_lt. lia.
  - apply item_with_buf. rewrite write_where_frame.
    + rewrite Hb, item_lookup by (done || apply wf_tabulate).
      by rewrite item_zeros.
    + intros idx Hidx Heq. rewrite Hs in Hidx.
      pose proof (in_bounds_length _ _ Hidx) as Hl.
      destruct idx as [|i' [|j' [|? ?]]]; try done.
      simpl in Hidx. rewrite andb_true_r in Hidx.
      apply andb_prop in Hidx as [Hi'%Nat.ltb_lt Hj'%Nat.ltb_lt].
      rewrite Hpos in Heq. apply wf_inj in Heq; [|apply wf_tabulate| |done].
      * injection Heq as Hei Hej.
        apply andb_false_iff in Hbox as [[[Hc|Hc]%andb_false_iff|Hc]%andb_false_iff|Hc].
        -- apply Nat.leb_gt in Hc. lia.
        -- apply Nat.ltb_ge in Hc. lia.
        -- apply Nat.leb_gt in Hc. lia.
        -- apply Nat.ltb_ge in Hc. lia.
      * simpl. apply andb_true_intro. split; [apply Nat.ltb_lt; lia|].
        rewrite andb_true_r. apply Nat.ltb_lt. lia.
Qed.

End Crop.

Section Compositor.
Context {pixel : Type} `{Inhabited pixel}.
Variable coerce_name : list string -> string -> string.

Implicit Types w : RemBGWidget pixel.

Lemma transpose_by_with_buf {A} (a : ndarray A) b ax t :
  transpose_by a ax = Ok t -> transpose_by (with_buf a b) ax = Ok (with_buf t b).
Proof.
  destruct ax as [ax|]; simpl.
  - unfold transpose, np.ndim. simpl. destruct (negb _); [done|].
    destruct (check_axes _ _ _); [|done]. by intros [= <-].
  - by intros [= <-].
Qed.

Lemma index0_with_buf {A} (t : ndarray A) b k v :
  index0 t k = Ok v -> index0 (with_buf t b) k = Ok (with_buf v b).
Proof.
  unfold index0. simpl. destruct (shape t); [done|]. destruct (strides t); [done|].
  destruct (k <? n); [|done]. by intros [= <-].
Qed.

Lemma setitem_mask_idem {A} (a : ndarray A) mask x b :
  setitem_mask a mask x = Ok b -> setitem_mask (with_buf a b) mask x = Ok b.
Proof.
  unfold setitem_mask. simpl. case_bool_decide; [|done].
  intros [= <-]. f_equal. apply write_where_const_idem.
Qed.

(** C6: the masked write is idempotent: for every label volume, mask,
    dimensionality, axes, step and label, applying the mask to the result
    of a first application gives that result again. *)
Theorem apply_mask_idempotent (lab : ndarray Z) mask nd ax cs label lab1 :
  apply_mask lab mask nd ax cs label = Ok lab1 ->
  apply_mask lab1 mask nd ax cs label = Ok lab1.
Proof.
  unfold apply_mask. case_bool_decide as H2.
  - destruct (setitem_mask lab mask label) as [b|] eqn:Hb; [|done].
    cbn [rbind]. intros [= <-]. by rewrite (setitem_mask_idem _ _ _ _ Hb).
  - case_bool_decide as H3; [|done].
    destruct ax as [ax|]; [|done]. cbn [rbind].
    destruct (transpose_by lab ax) as [t|] eqn:Ht; [|done]. cbn [rbind].
    destruct cs as [[k|ks]|]; [| |done]; cbn [rbind].
    + destruct (index0 t k) as [view|] eqn:Hv; [|done]. cbn [rbind].
      destruct (setitem_mask view mask label) as [b|] eqn:Hb; [|done].
      cbn [rbind]. intros [= <-].
      rewrite (transpose_by_with_buf _ b _ _ Ht). cbn [rbind].
      rewrite (index0_with_buf _ b _ _ Hv). cbn [rbind].
      by rewrite (setitem_mask_idem _ _ _ _ Hb).
    + destruct (take0 t ks) as [tmp|] eqn:Htmp; [|done]. cbn [rbind].
      destruct (setitem_mask tmp mask label) as [b|] eqn:Hb; [|done].
      cbn [rbind]. intros [= <-]. rewrite Ht. cbn [rbind]. rewrite Htmp.
      cbn [rbind]. by rewrite Hb.
Qed.

Lemma apply_mask_3d_inv (lab : ndarray Z) mask ax k label lab' :
  apply_mask lab mask (Some 3) (Ok (Some ax)) (Ok (StepScalar k)) label = Ok lab' ->
  exists t view b, transpose lab ax = Ok t /\ index0 t k = Ok view
    /\ setitem_mask view mask label = Ok b /\ lab' = with_buf lab b.
Proof.
  unfold apply_mask. rewrite bool_decide_eq_false_2 by done.
  rewrite bool_decide_eq_true_2 by done. cbn [rbind transpose_by].
  destruct (transpose lab ax) as [t|] eqn:Ht; [|done]. cbn [rbind].
  destruct (index0 t k) as [view|] eqn:Hv; [|done]. cbn [rbind].
  destruct (setitem_mask view mask label) as [b|] eqn:Hb; [|done]. cbn [rbind].
  intros [= <-]. by exists t, view, b.
Qed.

(** C5: for a 3D label volume, the masked write at [(axes, step)] leaves
    the shape alone and changes no element outside depth slice [step] of
    the volume transposed by [axes]: every coordinate whose entry along
    [axes[0]] differs from [step] keeps its value. *)
Theorem apply_mask_frame_3d (lab : ndarray Z) mask ax k label lab' :
  wf lab -> np.ndim lab = 3 ->
  apply_mask lab mask (Some 3) (Ok (Some ax)) (Ok (StepScalar k)) label = Ok lab' ->
  shape lab' = shape lab
  /\ forall c, in_bounds (shape lab) c = true -> c !!! (ax !!! 0) <> k ->
       item lab' c = item lab c.
Proof.
  intros Hwf Hnd (t & view & b & Ht & Hv & Hb & ->)%apply_mask_3d_inv.
  split; [done|].
  by destruct (masked_view_write lab ax k t view mask label b Hwf Hnd Ht Hv Hb).
Qed.

Lemma in_bounds_perm3 sh ax c :
  length sh = 3 -> is_perm 3 ax = true -> in_bounds sh c = true ->
  in_bounds [sh !!! (ax !!! 1); sh !!! (ax !!! 2)]
    [c !!! (ax !!! 1); c !!! (ax !!! 2)] = true.
Proof.
  intros Hl Hp Hc. pose proof (in_bounds_length _ _ Hc) as Hlc.
  list3 sh Hl. rewrite Hl in Hlc. list3 c Hlc. simpl in Hc.
  rewrite andb_true_r in Hc.
  apply andb_prop in Hc as [? [? ?]%andb_prop].
  perm3 ax Hp; simpl; rewrite andb_true_r; by apply andb_true_intro.
Qed.

(** C4: for a 3D image and a valid [(axes, step)], the slice is read at
    the coordinates [untranspose axes [step; i; j]] of the image, and the
    masked write through the same transposition and index lands on
    exactly these coordinates of a label volume of the image's shape: the
    element there becomes the label where the mask is set and keeps its
    value otherwise, and no other coordinate is touched. *)
Theorem slice_read_write_roundtrip w il img ax k (lab : ndarray Z) mask label :
  image_layer_obj w = Ok (Some il) -> img_data il = Some img ->
  rgb il = false -> np.ndim img = 3 -> wf img ->
  axes w = Ok (Some ax) -> current_step w = Ok (StepScalar k) ->
  is_perm 3 ax = true -> k < shape img !!! (ax !!! 0) ->
  wf lab -> shape lab = shape img ->
  shape mask = [shape img !!! (ax !!! 1); shape img !!! (ax !!! 2)] ->
  exists s lab',
    image_data_slice w = Ok (Some s)
    /\ apply_mask lab mask (Some 3) (axes w) (current_step w) label = Ok lab'
    /\ shape s = shape mask /\ shape lab' = shape lab
    /\ (forall i j, in_bounds (shape s) [i; j] = true ->
          in_bounds (shape img) (untranspose ax [k; i; j]) = true
          /\ item s [i; j] = item img (untranspose ax [k; i; j])
          /\ item lab' (untranspose ax [k; i; j])
             = if item mask [i; j] then label
               else item lab (untranspose ax [k; i; j]))
    /\ (forall c, in_bounds (shape lab) c = true ->
          (forall i j, in_bounds (shape s) [i; j] = true ->
             c <> untranspose ax [k; i; j]) ->
          item lab' c = item lab c).
Proof.
  intros Hil Hd Hrgb Hnd Hwi Hax Hcs Hp Hk Hwl Hsh Hm.
  (* the read *)
  destruct (transpose_index0_3d img ax k) as (s & Hs & _);
    [done|by rewrite (proj1 Hwi)|done|done|].
  destruct (transpose img ax) as [ti|] eqn:Hti; [|done]. cbn [rbind] in Hs.
  destruct (view3_facts img ax k ti s Hwi Hnd Hti Hs)
    as (_ & _ & Hbs & Hss & Hps & Hins & _).
  (* the write *)
  assert (Hndl : np.ndim lab = 3) by (unfold np.ndim; by rewrite Hsh).
  destruct (transpose_index0_3d lab ax k) as (view & Hview & _);
    [done|by rewrite (proj1 Hwl)|done|by rewrite Hsh|].
  destruct (transpose lab ax) as [tl|] eqn:Htl; [|done]. cbn [rbind] in Hview.
  destruct (view3_facts lab ax k tl view Hwl Hndl Htl Hview)
    as (_ & _ & Hbv & Hsv & _ & _ & _).
  assert (Hset : setitem_mask view mask label
            = Ok (write_where view
                    (fun idx => item mask (take (np.ndim mask) idx))
                    (fun _ => label))).
  { unfold setitem_mask. rewrite bool_decide_eq_true_2; [done|].
    unfold np.ndim. by rewrite Hsv, Hm, Hsh. }
  destruct (masked_view_write lab ax k tl view mask label _ Hwl Hndl Htl Hview Hset)
    as [Hwr Hfr].
  exists s, (with_buf lab (write_where view
               (fun idx => item mask (take (np.ndim mask) idx))
               (fun _ => label))).
  split; [|split; [|split; [|split; [done|split]]]].
  - unfold image_data_slice.
    rewrite (image_data_of _ _ Hil), Hd. cbn [rbind].
    rewrite (ndim_of _ _ _ Hil Hd), Hrgb. cbn [rbind]. rewrite Hnd.
    rewrite bool_decide_eq_false_2 by done.
    rewrite bool_decide_eq_true_2 by done.
    rewrite Hax. cbn [rbind transpose_by]. rewrite Hti. cbn [rbind].
    rewrite Hcs. cbn [rbind index_step]. by rewrite Hs.
  - unfold apply_mask. rewrite bool_decide_eq_false_2 by done.
    rewrite bool_decide_eq_true_2 by done.
    rewrite Hax, Hcs. cbn [rbind transpose_by]. rewrite Htl. cbn [rbind].
    rewrite Hview. cbn [rbind]. rewrite Hset. cbn [rbind]. reflexivity.
  - by rewrite Hss, Hm.
  - intros i j Hij. split; [by apply Hins|]. split.
    + unfold item. by rewrite Hps, Hbs.
    + rewrite Hwr.
      * unfold np.ndim. rewrite Hm. done.
      * by rewrite Hsv, Hsh, <- Hss.
  - intros c Hc Hne. apply Hfr; [done|]. intros Hck.
    pose proof (in_bounds_length _ _ Hc) as Hlc.
    apply (Hne (c !!! (ax !!! 1)) (c !!! (ax !!! 2))).
    + rewrite Hss, <- Hsh. apply in_bounds_perm3; [apply Hndl|done|done].
    + rewrite <- Hck. apply untranspose_surj; [done|]. by rewrite Hlc.
Qed.


Lemma add_items_Ok keep (ls : list (Layer pixel)) cb :
  Forall (fun l => exists b, keep l = Ok b) ls ->
  exists cb', add_items keep ls cb = Ok cb'
    /\ forall t, t ∈ items cb' -> t ∈ items cb \/ t ∈ layer_name <$> ls.
Proof.
  revert cb; induction ls as [|x ls IH]; intros cb Hk; simpl.
  - exists cb. split; [done|]. by left.
  - apply Forall_cons in Hk as [[b Hb] Hk]. rewrite Hb. cbn [rbind].
    destruct (IH (if b then addItem cb (layer_name x) else cb) Hk)
      as (cb' & -> & Hin).
    exists cb'. split; [done|]. intros t [Ht|Ht]%Hin.
    + destruct b; [|by left]. simpl in Ht.
      apply elem_of_app in Ht as [?|Ht]; [by left|].
      apply list_elem_of_singleton in Ht as ->. right. by left.
    + right. by right.
Qed.

Lemma currentText_in cb :
  currentText cb <> EmptyString -> currentText cb ∈ items cb.
Proof.
  unfold currentText. destruct (currentIndex cb) as [i|]; [|done].
  destruct (items cb !! i) as [t|] eqn:Ht; [|done]. simpl. intros _.
  by eapply list_elem_of_lookup_2.
Qed.

Lemma layers_getitem_Ok (ls : list (Layer pixel)) name :
  name ∈ layer_name <$> ls -> exists r, layers_getitem ls name = Ok r.
Proof.
  intros (l & -> & Hl)%list_elem_of_fmap. unfold layers_getitem.
  destruct (list_find_elem_of (fun l' => layer_name l' = layer_name l) ls l)
    as [[r ?] ->]; [done|done|]. by exists r.
Qed.

Lemma select_layer_Ok keep (ls : list (Layer pixel)) cb old :
  add_items keep ls clear = Ok cb -> 
  Forall (fun l => exists b, keep l = Ok b) ls ->
  exists r, select_layer ls cb old = Ok r.
Proof.
  intros Hcb Hk. unfold select_layer. case_bool_decide as Ht; [by exists old|].
  destruct (add_items_Ok keep ls clear Hk) as (cb' & Hcb' & Hin).
  rewrite Hcb in Hcb'. injection Hcb' as <-.
  destruct (Hin _ (currentText_in _ Ht)) as [Hc|Hn].
  - by apply elem_of_nil in Hc.
  - destruct (layers_getitem_Ok _ _ Hn) as [r ->]. by exists (Some r).
Qed.

Lemma on_layer_change_Ok w :
  images_have_data (viewer_layers w) ->
  exists w', _on_layer_change w = Ok w'
    /\ viewer_layers w' = viewer_layers w /\ viewer_dims w' = viewer_dims w.
Proof.
  intros Hd. unfold _on_layer_change.
  assert (Hki : Forall (fun l => exists b, keep_image l = Ok b) (viewer_layers w)).
  { eapply Forall_impl; [exact Hd|]. intros [i| |]; simpl; eauto.
    intros [d ->]. eauto. }
  assert (Hkl : Forall (fun l : Layer pixel => exists b, keep_labels l = Ok b)
                  (viewer_layers w)).
  { apply Forall_forall. intros [| |] _; simpl; eauto. }
  assert (Hks : Forall (fun l : Layer pixel => exists b, keep_shapes l = Ok b)
                  (viewer_layers w)).
  { apply Forall_forall. intros [| |] _; simpl; eauto. }
  destruct (add_items_Ok _ _ clear Hki) as (cbi & Hcbi & _).
  destruct (add_items_Ok _ _ clear Hkl) as (cbr & Hcbr & _).
  destruct (add_items_Ok _ _ clear Hks) as (cbs & Hcbs & _).
  destruct (select_layer_Ok _ _ _ (image_layer w) Hcbi Hki) as [il Hil].
  destruct (select_layer_Ok _ _ _ (labels_layer w) Hcbr Hkl) as [ll Hll].
  destruct (select_layer_Ok _ _ _ (shapes_layer w) Hcbs Hks) as [sl Hsl].
  rewrite Hcbi. cbn [rbind]. rewrite Hil. cbn [rbind].
  rewrite Hcbr. cbn [rbind]. rewrite Hll. cbn [rbind].
  rewrite Hcbs. cbn [rbind]. rewrite Hsl. cbn [rbind].
  eexists. split; [done|]. done.
Qed.

(** C7: when the result combo box shows no label layer, a new labels
    layer is appended and becomes the target of the write; its array is
    zero everywhere and has the shape of the image, or, for an RGB image,
    that shape without the channel axis. *)
Theorem resolve_creates_zero_volume w il img :
  currentText (cb_result w) = EmptyString ->
  image_layer_obj w = Ok (Some il) -> img_data il = Some img ->
  (rgb il = true -> np.ndim img = 3) ->
  images_have_data (viewer_layers w) ->
  exists w1 b,
    resolve_labels_layer coerce_name w = Ok w1
    /\ viewer_layers w1 = viewer_layers w ++ [Labels b]
    /\ labels_layer w1 = Some (length (viewer_layers w))
    /\ lbl_data b = zeros (if rgb il then take 2 (shape img) else shape img)
    /\ (forall idx, in_bounds (shape (lbl_data b)) idx = true ->
          item (lbl_data b) idx = 0%Z).
Proof.
  intros Htxt Hil Hd Hrgb Hdata.
  assert (Hvol : new_label_volume w
            = Ok (zeros (if rgb il then take 2 (shape img) else shape img))).
  { unfold new_label_volume. rewrite Hil. cbn [rbind].
    rewrite (image_data_of _ _ Hil), Hd. cbn [rbind].
    destruct (rgb il); [|done].
    unfold mean_axis2_shape. specialize (Hrgb eq_refl). unfold np.ndim in Hrgb.
    rewrite Hrgb. cbn [rbind Nat.ltb Nat.leb].
    by rewrite drop_ge, app_nil_r by lia. }
  unfold resolve_labels_layer. rewrite bool_decide_eq_true_2 by done.
  rewrite Hvol. cbn [rbind]. unfold add_labels.
  set (b := mkLabels _ _ 1).
  destruct (on_layer_change_Ok (set_layers w (viewer_layers w ++ [Labels b])))
    as (w' & -> & Hls & _).
  { apply Forall_app. split; [done|]. by apply Forall_singleton. }
  cbn [rbind]. eexists _, b. split; [done|]. simpl. split; [done|].
  split; [done|]. split; [done|].
  intros idx Hidx. by apply item_zeros.
Qed.

End Compositor.

(* ================================================================= *)
(** * The statements on concrete states *)

Lemma image_data_slice_2d_witness :
  image_data_slice Ex.w2 = Ok (Some Ex.img2).
Proof.
  apply (image_data_slice_2d Ex.w2 Ex.image2 Ex.img2);
    [reflexivity|reflexivity|right; reflexivity].
Defined.

Lemma image_data_slice_3d_witness :
  axes Ex.w3 = Ok (Some [1; 0; 2])
  /\ current_step Ex.w3 = Ok (StepScalar 1)
  /\ image_data_slice Ex.w3
     = (let* t := transpose Ex.img3 [1; 0; 2] in
        let* s := index0 t 1 in Ok (Some s)).
Proof.
  apply (image_data_slice_3d Ex.w3 Ex.image3 Ex.img3 1 []);
    [reflexivity|reflexivity|reflexivity|reflexivity|reflexivity|reflexivity
    |simpl; lia].
Defined.

Lemma roi_ignored_in_transposed_view_witness :
  roi_applies Ex.w3 = Ok false
  /\ _remove_background Ex.all_foreground Ex.no_pixels Ex.w3
     = rembg_predict Ex.all_foreground (copy Ex.slice3).
Proof.
  apply (roi_ignored_in_transposed_view Ex.all_foreground Ex.no_pixels
           Ex.w3 Ex.image3 Ex.img3 Ex.roi Ex.rect 1 [0; 2] Ex.slice3);
    [reflexivity|reflexivity|reflexivity|reflexivity|reflexivity|reflexivity
    |reflexivity|reflexivity|discriminate|vm_compute; reflexivity].
Defined.

Lemma on_slice_change_clears_rectangle_witness :
  exists w', _on_slice_change Ex.w2 = Ok w'
    /\ viewer_layers w' !! 1 = Some (Shapes (mkShapes "roi" [])).
Proof.
  destruct (on_slice_change_clears_rectangle Ex.w2 1 Ex.roi Ex.rect)
    as (w' & Hw & Hl & _);
    [reflexivity|reflexivity|reflexivity|reflexivity|].
  exists w'. split; [exact Hw|exact Hl].
Defined.

Lemma empty_roi_raises_witness :
  roi_bbox (zeros [3; 3]) = Raise IndexError
  /\ _remove_background Ex.all_foreground Ex.no_pixels Ex.w2 = Raise IndexError.
Proof.
  apply (empty_roi_raises Ex.all_foreground Ex.no_pixels Ex.w2 Ex.img2
           (zeros [3; 3]));
    [reflexivity|reflexivity|vm_compute; reflexivity|left; reflexivity
    |apply item_zeros].
Defined.

Lemma segment_roi_witness :
  exists seg, segment_roi Ex.all_foreground (copy Ex.img2) Ex.box = Ok seg
    /\ shape seg = [3; 3]
    /\ item seg [0; 0] = 0%Z /\ item seg [1; 2] = 1%Z.
Proof.
  destruct (segment_roi_outside_zero_inside_prediction Ex.all_foreground
              (copy Ex.img2) Ex.box Ex.crop2 Ex.ones22)
    as (seg & Hseg & Hsh & Hitem);
    [vm_compute; reflexivity|vm_compute; reflexivity|reflexivity|].
  exists seg. split; [exact Hseg|]. split; [exact Hsh|]. split.
  - apply (Hitem 0 0). rewrite Hsh. reflexivity.
  - rewrite (Hitem 1 2) by (rewrite Hsh; reflexivity). reflexivity.
Defined.

Lemma slice_read_write_roundtrip_witness :
  exists s lab',
    image_data_slice Ex.w3 = Ok (Some s)
    /\ apply_mask Ex.lab3 Ex.diagonal (Some 3) (axes Ex.w3)
         (current_step Ex.w3) 5 = Ok lab'
    /\ item s [1; 1] = item Ex.img3 [1; 1; 1]
    /\ item lab' [1; 1; 1] = 5%Z.
Proof.
  destruct (slice_read_write_roundtrip Ex.w3 Ex.image3 Ex.img3 [1; 0; 2] 1
              Ex.lab3 Ex.diagonal 5)
    as (s & lab' & Hs & Hl & Hss & _ & Hrw & _);
    [reflexivity|reflexivity|reflexivity|reflexivity|apply wf_tabulate
    |reflexivity|reflexivity|reflexivity|simpl; lia|apply wf_tabulate
    |reflexivity|reflexivity|].
  exists s, lab'. split; [exact Hs|]. split; [exact Hl|].
  destruct (Hrw 1 1) as (_ & Hread & Hwrite); [rewrite Hss; reflexivity|].
  split; [exact Hread|exact Hwrite].
Defined.

Lemma apply_mask_frame_3d_witness :
  shape Ex.lab3_written = shape Ex.lab3
  /\ forall c, in_bounds (shape Ex.lab3) c = true -> c !!! 1 <> 1 ->
       item Ex.lab3_written c = item Ex.lab3 c.
Proof.
  apply (apply_mask_frame_3d Ex.lab3 Ex.diagonal [1; 0; 2] 1 5 Ex.lab3_written);
    [apply wf_tabulate|reflexivity|vm_compute; reflexivity].
Defined.

Lemma apply_mask_idempotent_witness :
  apply_mask Ex.lab3_written Ex.diagonal (Some 3) (Ok (Some [1; 0; 2]))
    (Ok (StepScalar 1)) 5 = Ok Ex.lab3_written.
Proof.
  apply (apply_mask_idempotent Ex.lab3 Ex.diagonal (Some 3)
           (Ok (Some [1; 0; 2])) (Ok (StepScalar 1)) 5 Ex.lab3_written).
  vm_compute; reflexivity.
Defined.

Lemma resolve_creates_zero_volume_witness :
  exists w1 b,
    resolve_labels_layer Ex.keep_name Ex.w3 = Ok w1
    /\ viewer_layers w1 = viewer_layers Ex.w3 ++ [Labels b]
    /\ labels_layer w1 = Some 2
    /\ lbl_data b = zeros [2; 2; 2].
Proof.
  destruct (resolve_creates_zero_volume Ex.keep_name Ex.w3 Ex.image3 Ex.img3)
    as (w1 & b & Hw & Hl & Hr & Hd & _);
    [reflexivity|reflexivity|reflexivity|discriminate
    |repeat constructor; eexists; reflexivity|].
  exists w1, b. split; [exact Hw|]. split; [exact Hl|]. split; [exact Hr|exact Hd].
Defined.

(* ================================================================= *)
(** * The worker and the write-back, end to end *)

Section Pipeline.
Context {pixel : Type} `{Inhabited pixel}.
Variable rembg_remove : ndarray pixel -> res (ndarray Z).
Variable to_labels : Dims -> list Shape -> res (ndarray Z).
Variable coerce_name : list string -> string -> string.

Implicit Types w : RemBGWidget pixel.

(** In a 3D rendering view there are no axes, and the trigger declines. *)
Lemma axes_in_3d_view w : is_in_3d_view w = true -> axes w = Ok None.
Proof. unfold axes. by intros ->. Qed.

Lemma trigger_declines_in_3d_view w :
  is_in_3d_view w = true -> _trigger_remove_background w = Ok None.
Proof. unfold _trigger_remove_background. by intros ->. Qed.

(** With the ROI condition satisfied, the worker is the crop-and-paste of lines
    190-193 at the bounding box of the rasterised ROI. *)
Lemma remove_background_with_roi w sl m bb :
  image_data_slice w = Ok (Some sl) ->
  roi_applies w = Ok true ->
  roi_mask to_labels w = Ok m ->
  roi_bbox m = Ok bb ->
  _remove_background rembg_remove to_labels w
  = segment_roi rembg_remove (copy sl) bb.
Proof.
  intros Hsl Hroi Hm Hbb. unfold _remove_background.
  rewrite Hsl. cbn [rbind]. rewrite Hroi. cbn [rbind].
  rewrite Hm. cbn [rbind]. by rewrite Hbb.
Qed.

(** Without a selected shapes layer the worker is the predictor on the
    whole slice. *)
Lemma remove_background_without_roi w sl :
  image_data_slice w = Ok (Some sl) ->
  shapes_layer w = None ->
  _remove_background rembg_remove to_labels w
  = rembg_predict rembg_remove (copy sl).
Proof.
  intros Hsl Hs. unfold _remove_background. rewrite Hsl. cbn [rbind].
  unfold roi_applies, single_rectangle, shapes_layer_obj. by rewrite Hs.
Qed.

(** With a label layer selected in the combo box, [_thread_returned]
    replaces the array of that layer by the result of [apply_mask]. *)
Lemma thread_returned_selected w seg r b nd :
  currentText (cb_result w) <> EmptyString ->
  layers_getitem (viewer_layers w) (currentText (cb_result w)) = Ok r ->
  viewer_layers w !! r = Some (Labels b) ->
  ndim w = Ok (Some nd) -> nd = 2 \/ nd = 3 ->
  _thread_returned coerce_name w seg
  = (let* data := apply_mask (lbl_data b) (gt0 seg) (Some nd) (axes w)
                    (current_step w) (lbl_selected_label b) in
     Ok (set_pbar_maximum
           (set_layers (set_labels_layer w (Some r))
              (<[r := Labels (mkLabels (lbl_name b) data (lbl_selected_label b))]>
                 (viewer_layers w))) 1)).
Proof.
  intros Htxt Hr Hl Hnd Hcase. unfold _thread_returned, resolve_labels_layer.
  rewrite bool_decide_eq_false_2 by done. rewrite Hr. cbn [rbind].
  change (ndim (set_labels_layer w (Some r))) with (ndim w). rewrite Hnd.
  cbn [rbind].
  rewrite bool_decide_eq_true_2 by (destruct Hcase as [-> | ->]; [by left|by right]).
  unfold selected_label, labels_layer_obj, lookup_layer. simpl.
  rewrite Hl. cbn [rbind].
  change (axes (set_labels_layer w (Some r))) with (axes w).
  change (current_step (set_labels_layer w (Some r))) with (current_step w).
  by destruct (apply_mask _ _ _ _ _ _).
Qed.

End Pipeline.

(** ** Scenarios *)

(** The bounding box of the rasterised rectangle of [Ex.w2]. *)
Example roi_bbox_of_rectangle :
  (let* m := roi_mask Ex.rect_pixels Ex.w2 in roi_bbox m) = Ok Ex.box.
Proof. vm_compute. reflexivity. Qed.

(** 2D image, rectangle ROI, predictor all ones on the crop: the mask is 1
    on rows and columns 1 and 2 and 0 elsewhere. *)
Example remove_background_2d_roi :
  (let* seg := _remove_background Ex.all_foreground Ex.rect_pixels Ex.w2 in
   Ok (shape seg, item seg <$> ndindex (shape seg)))
  = Ok ([3; 3], [0; 0; 0; 0; 1; 1; 0; 1; 1]%Z).
Proof. vm_compute. reflexivity. Qed.

(** The same run written back: a new labels layer holds the selected label
    1 in the box and 0 elsewhere, and the combo box now shows it. *)
Example thread_returned_2d_roi :
  (let* seg := _remove_background Ex.all_foreground Ex.rect_pixels Ex.w2 in
   let* w := _thread_returned Ex.keep_name Ex.w2 seg in
   Ok (labels_layer w, currentText (cb_result w),
       match viewer_layers w !! 2 with
       | Some (Labels b) => buf (lbl_data b)
       | _ => []
       end))
  = Ok (Some 2, "Foreground mask", [0; 0; 0; 0; 1; 1; 0; 1; 1]%Z).
Proof. vm_compute. reflexivity. Qed.

(** 3D image seen through axes 0 and 2 at step 1 of axis 1, rectangle
    present: the ROI is ignored, the mask covers the whole slice, and only
    the cells [(i, 1, j)] of the new label volume are written. *)
Example thread_returned_3d_transposed :
  (let* seg := _remove_background Ex.all_foreground Ex.rect_pixels Ex.w3 in
   let* w := _thread_returned Ex.keep_name Ex.w3 seg in
   Ok (shape seg,
       match viewer_layers w !! 2 with
       | Some (Labels b) => buf (lbl_data b)
       | _ => []
       end))
  = Ok ([2; 2], [0; 0; 1; 1; 0; 0; 1; 1]%Z).
Proof. vm_compute. reflexivity. Qed.

(** An empty rasterisation makes the same run raise. *)
Example remove_background_empty_roi :
  _remove_background Ex.all_foreground Ex.no_pixels Ex.w2 = Raise IndexError.
Proof. vm_compute. reflexivity. Qed.
